(** * Contact, analytics and client-portal backend: storage layer and routes

    A shallow embedding of [storage.ts] (class [DatabaseStorage]) and of
    the route handlers registered by [registerRoutes], followed by the
    properties of the specification that concern them.

    Conventions of the embedding

    - The relational store is a record of tables; a table is the list of its
      rows in insertion order, and a serial primary key is the next value of
      its sequence.  Every statement of the source is one function on the
      store.  The store of the model is always reachable: a statement is
      rejected only for a reason visible in its arguments (a value that is
      not an integer, a missing NOT NULL column, a foreign key without
      target).  An insert draws its identifier before the row is checked: a
      rejected insert leaves the tables as they were and the sequence one
      further.
    - The store orders rows with equal sort keys as it chooses, and anew for
      every statement: [ordered_desc] describes the results it may give,
      and [orderBy] computes one of them.
    - A [Promise] is its settlement: [Resolved v] or [Rejected e].  A handler
      threads the store through the single storage call it makes.
    - [new Date()] and the store's [now()] default are the argument [now].
    - JavaScript numbers are IEEE-754 binary64 values ([number], on the
      Standard Library's [spec_float]); row counts, identifiers and
      timestamps are integers and are kept in [Z], converted by [num_of_Z]
      where the source does arithmetic on them. *)

From Stdlib Require Import ZArith Ascii String Floats.SpecFloat.
From stdpp Require Import base option list sorting gmap strings.

Local Open Scope Z_scope.

(** ** JavaScript numbers *)

Definition number : Type := spec_float.

(** The binary64 value nearest to an integer (exact below 2^53). *)
Definition num_of_Z (n : Z) : number := binary_normalize 53 1024 n 0 false.

Definition num_mul : number → number → number := SFmul 53 1024.
Definition num_div : number → number → number := SFdiv 53 1024.

(** [Math.round]: the integer nearest to [x], a tie going towards +infinity;
    a result of zero keeps the sign of [x]; infinities, NaN and values that
    are already integers are returned as they are. *)
Definition Math_round (x : number) : number :=
  match x with
  | S754_finite s m e =>
      if 0 <=? e then x
      else
        let n := (cond_Zopp s (2 * Z.pos m) + 2 ^ (- e)) / 2 ^ (- e + 1) in
        if n =? 0 then S754_zero s else num_of_Z n
  | _ => x
  end.

(** [parseInt(s)] with no radix: leading white space, an optional sign, an
    optional [0x] prefix, then the longest run of digits; [NaN] when there is
    no digit, and otherwise the JavaScript number nearest to the integer
    that the digits write: that integer itself below 2^53, and [Infinity]
    from 2^1024 on.  A string is the sequence of the bytes of its UTF-8
    encoding. *)
Inductive Num := NaN | Int (z : Z) | Infinity.

Definition byte (c : ascii) : Z := Z.of_nat (nat_of_ascii c).

(** The white space and line terminators of one byte: U+0009 to U+000D and
    U+0020. *)
Definition is_space (c : ascii) : bool :=
  let n := Z.of_nat (nat_of_ascii c) in
  (n =? 32) || ((9 <=? n) && (n <=? 13)).

(** Of two bytes: U+00A0. *)
Definition is_space2 (a b : ascii) : bool :=
  (byte a =? 194) && (byte b =? 160).

(** Of three bytes: U+1680, U+2000 to U+200A, U+2028, U+2029, U+202F,
    U+205F, U+3000 and U+FEFF. *)
Definition is_space3 (a b c : ascii) : bool :=
  ((byte a =? 225) && (byte b =? 154) && (byte c =? 128))
  || ((byte a =? 226) && (byte b =? 128)
      && (((128 <=? byte c) && (byte c <=? 138))
          || (byte c =? 168) || (byte c =? 169) || (byte c =? 175)))
  || ((byte a =? 226) && (byte b =? 129) && (byte c =? 159))
  || ((byte a =? 227) && (byte b =? 128) && (byte c =? 128))
  || ((byte a =? 239) && (byte b =? 187) && (byte c =? 191)).

Fixpoint skip_spaces (s : string) : string :=
  match s with
  | String a r =>
      if is_space a then skip_spaces r
      else
        match r with
        | String b r2 =>
            if is_space2 a b then skip_spaces r2
            else
              match r2 with
              | String c r3 => if is_space3 a b c then skip_spaces r3 else s
              | EmptyString => s
              end
        | EmptyString => s
        end
  | EmptyString => s
  end.

(** A JavaScript number as an identifier: the integer it is, when finite. *)
Definition Num_of_number (x : number) : Num :=
  match x with
  | S754_zero _ => Int 0
  | S754_finite s m e =>
      Int (cond_Zopp s
             (if 0 <=? e then Z.pos m * 2 ^ e else Z.pos m / 2 ^ (- e)))
  | S754_infinity _ => Infinity
  | S754_nan => NaN
  end.

Definition digit_value (c : ascii) : option Z :=
  let n := Z.of_nat (nat_of_ascii c) in
  if (48 <=? n) && (n <=? 57) then Some (n - 48)
  else if (97 <=? n) && (n <=? 122) then Some (n - 87)
  else if (65 <=? n) && (n <=? 90) then Some (n - 55)
  else None.

Fixpoint parse_digits (radix : Z) (acc : option Z) (s : string) : option Z :=
  match s with
  | String c s' =>
      match digit_value c with
      | Some d =>
          if d <? radix
          then parse_digits radix (Some (default 0 acc * radix + d)) s'
          else acc
      | None => acc
      end
  | EmptyString => acc
  end.

Definition parseInt (s : string) : Num :=
  let s1 := skip_spaces s in
  let '(neg, s2) :=
    match s1 with
    | String "-" r => (true, r)
    | String "+" r => (false, r)
    | _ => (false, s1)
    end in
  let '(radix, s3) :=
    match s2 with
    | String "0" (String "x" r) => (16, r)
    | String "0" (String "X" r) => (16, r)
    | _ => (10, s2)
    end in
  match parse_digits radix None s3 with
  | Some n => Num_of_number (num_of_Z (if neg : bool then - n else n))
  | None => NaN
  end.

(** ** JSON values and objects *)

Inductive JSON :=
  | JNull
  | JBool (b : bool)
  | JNum (n : Z)
  | JStr (s : string).

#[global] Instance JSON_eq_dec : EqDecision JSON.
Proof. solve_decision. Defined.

(** A JavaScript object used as a record of named values. *)
Abbreviation JObj := (gmap string JSON).

(** ** Promises and thrown values *)

Record ZodIssue := { issue_path : string; issue_message : string }.

Inductive Thrown :=
  | ZodError (errors : list ZodIssue)
  | StoreError (reason : string).

Inductive Promise (A : Type) :=
  | Resolved (value : A)
  | Rejected (error : Thrown).

Arguments Resolved {A} value.
Arguments Rejected {A} error.

(** ** Schema validation *)

(** Modelled from the spec: [@shared/schema] and the zod library are not part
    of the sources.  A schema is the list of its fields, each with a name, a
    type and whether it is required. *)
Inductive Kind := KString | KNumber | KBoolean.

Record Field := { fname : string; fkind : Kind; frequired : bool }.

Definition Shape : Type := list Field.

Definition has_kind (k : Kind) (v : JSON) : bool :=
  match k, v with
  | KString, JStr _ => true
  | KNumber, JNum _ => true
  | KBoolean, JBool _ => true
  | _, _ => false
  end.

(** Modelled from the spec: the issues of one field, none when the field is
    present with its type or absent and optional. *)
Definition check_field (o : JObj) (f : Field) : list ZodIssue :=
  match o !! fname f with
  | None =>
      if frequired f
      then [ {| issue_path := fname f; issue_message := "Required" |} ]
      else []
  | Some v =>
      if has_kind (fkind f) v then []
      else [ {| issue_path := fname f; issue_message := "Invalid type" |} ]
  end.

(** Modelled from the spec: the object restricted to the fields of the
    schema. *)
Definition strip (sh : Shape) (o : JObj) : JObj :=
  filter (λ kv, kv.1 ∈ fname <$> sh) o.

(** Modelled from the spec: [schema.parse(o)] throws a [ZodError] carrying
    the issues of all fields when there is one, and otherwise returns the
    restricted object. *)
Definition parse (sh : Shape) (o : JObj) : Promise JObj :=
  match sh ≫= check_field o with
  | [] => Resolved (strip sh o)
  | issues => Rejected (ZodError issues)
  end.

(** ** Tables *)

(** Modelled from the spec: the table declarations of [@shared/schema] are
    not part of the sources.  A row has the columns the storage layer and the
    specification name; [data] holds the remaining columns as they were
    inserted.  The column defaults are the ones the specification gives: a
    serial identifier, status ["new"] for a submission and ["planning"] for a
    project, no assignee, and the insertion time for the timestamps. *)
Module contactSubmissions.
Record row := {
  id : Z;
  data : JObj;
  status : string;
  assignedTo : option Z;
  createdAt : Z;
  updatedAt : Z }.
End contactSubmissions.

Module pageViews.
Record row := { id : Z; path : string; timestamp : Z; data : JObj }.
End pageViews.

Module clients.
Record row := { id : Z; data : JObj }.
End clients.

Module projects.
Record row := { id : Z; clientId : Z; status : string; data : JObj }.
End projects.

Module engineers.
Record row := { id : Z; availability : string; data : JObj }.
End engineers.

Abbreviation ContactSubmission := contactSubmissions.row.
Abbreviation PageView := pageViews.row.
Abbreviation Client := clients.row.
Abbreviation Project := projects.row.
Abbreviation Engineer := engineers.row.

(** The store [db]: the rows of each table and the next value of each serial
    sequence. *)
Record Database := {
  contactSubmissions_rows : list ContactSubmission;
  contactSubmissions_seq : Z;
  pageViews_rows : list PageView;
  pageViews_seq : Z;
  clients_rows : list Client;
  clients_seq : Z;
  projects_rows : list Project;
  projects_seq : Z;
  engineers_rows : list Engineer }.

Definition empty_db : Database :=
  {| contactSubmissions_rows := []; contactSubmissions_seq := 1;
     pageViews_rows := []; pageViews_seq := 1;
     clients_rows := []; clients_seq := 1;
     projects_rows := []; projects_seq := 1;
     engineers_rows := [] |}.

Definition with_contactSubmissions
    (rows : list ContactSubmission) (seq : Z) (db : Database) : Database :=
  {| contactSubmissions_rows := rows; contactSubmissions_seq := seq;
     pageViews_rows := pageViews_rows db; pageViews_seq := pageViews_seq db;
     clients_rows := clients_rows db; clients_seq := clients_seq db;
     projects_rows := projects_rows db; projects_seq := projects_seq db;
     engineers_rows := engineers_rows db |}.

Definition with_pageViews
    (rows : list PageView) (seq : Z) (db : Database) : Database :=
  {| contactSubmissions_rows := contactSubmissions_rows db;
     contactSubmissions_seq := contactSubmissions_seq db;
     pageViews_rows := rows; pageViews_seq := seq;
     clients_rows := clients_rows db; clients_seq := clients_seq db;
     projects_rows := projects_rows db; projects_seq := projects_seq db;
     engineers_rows := engineers_rows db |}.

Definition with_clients
    (rows : list Client) (seq : Z) (db : Database) : Database :=
  {| contactSubmissions_rows := contactSubmissions_rows db;
     contactSubmissions_seq := contactSubmissions_seq db;
     pageViews_rows := pageViews_rows db; pageViews_seq := pageViews_seq db;
     clients_rows := rows; clients_seq := seq;
     projects_rows := projects_rows db; projects_seq := projects_seq db;
     engineers_rows := engineers_rows db |}.

Definition with_projects
    (rows : list Project) (seq : Z) (db : Database) : Database :=
  {| contactSubmissions_rows := contactSubmissions_rows db;
     contactSubmissions_seq := contactSubmissions_seq db;
     pageViews_rows := pageViews_rows db; pageViews_seq := pageViews_seq db;
     clients_rows := clients_rows db; clients_seq := clients_seq db;
     projects_rows := rows; projects_seq := seq;
     engineers_rows := engineers_rows db |}.

(** ** Query operators *)

(** [count()] over a table. *)
Definition count {A} (tbl : list A) : Z := Z.of_nat (length tbl).

(** [desc(key)]: no later row has a greater key. *)
Definition desc {A} (key : A → Z) : relation A := λ a b, key b ≤ key a.

#[global] Instance desc_dec {A} (key : A → Z) a b : Decision (desc key a b).
Proof. unfold desc. apply _. Defined.

(** [.orderBy(desc(key))]: what the store may return, the rows in
    descending order of the key, rows with equal keys in any order. *)
Definition ordered_desc {A} (key : A → Z) (tbl result : list A) : Prop :=
  result ≡ₚ tbl ∧ StronglySorted (desc key) result.

(** One of these results, computed: a merge sort of the table. *)
Definition orderBy {A} (R : relation A) `{∀ a b, Decision (R a b)}
    (tbl : list A) : list A :=
  merge_sort R tbl.

(** [.limit(n)]. *)
Definition limit {A} (n : nat) (tbl : list A) : list A := take n tbl.

(** [.update(t).set(f).where(p).returning()]: the table after the update
    and the updated rows. *)
Definition update_where {A} (P : A → Prop) `{∀ r, Decision (P r)}
    (set : A → A) (tbl : list A) : list A * list A :=
  ((λ r, if decide (P r) then set r else r) <$> tbl, set <$> filter P tbl).

(** [select({path, views: count()}).groupBy(path)]: one row per distinct
    path, with the number of rows that have it. *)
Record PageCount := { path : string; views : Z }.

Definition groupBy_count (paths : list string) : list PageCount :=
  (λ p, {| path := p; views := count (filter (p =.) paths) |})
    <$> remove_dups paths.

(** ** The storage layer: [DatabaseStorage] *)

Definition createContactSubmission (insertSubmission : JObj) (now : Z)
    (db : Database) : Promise ContactSubmission * Database :=
  let submission :=
    {| contactSubmissions.id := contactSubmissions_seq db;
       contactSubmissions.data := insertSubmission;
       contactSubmissions.status := "new";
       contactSubmissions.assignedTo := None;
       contactSubmissions.createdAt := now;
       contactSubmissions.updatedAt := now |} in
  (Resolved submission,
   with_contactSubmissions (contactSubmissions_rows db ++ [submission])
     (contactSubmissions_seq db + 1) db).

Definition getContactSubmissions (db : Database)
    : Promise (list ContactSubmission) :=
  Resolved
    (orderBy (desc contactSubmissions.createdAt) (contactSubmissions_rows db)).

Definition createPageView (pageView : JObj) (now : Z) (db : Database)
    : Promise PageView * Database :=
  match pageView !! "path" with
  | Some (JStr p) =>
      let view :=
        {| pageViews.id := pageViews_seq db;
           pageViews.path := p;
           pageViews.timestamp := now;
           pageViews.data := delete "path" pageView |} in
      (Resolved view,
       with_pageViews (pageViews_rows db ++ [view]) (pageViews_seq db + 1) db)
  | _ =>
      (Rejected (StoreError "page_views.path is not a text value"),
       with_pageViews (pageViews_rows db) (pageViews_seq db + 1) db)
  end.

Record Dashboard := {
  totalVisitors : Z;
  pageViews : Z;
  contactForms : Z;
  conversionRate : number;
  topPages : list PageCount;
  recentSubmissions : list ContactSubmission;
  monthlyStats : list JSON }.

Definition getAnalyticsDashboard (db : Database) : Promise Dashboard :=
  let totalVisitors := count (pageViews_rows db) in
  let totalPageViews := count (pageViews_rows db) in
  let totalContacts := count (contactSubmissions_rows db) in
  let conversionRate :=
    if 0 <? totalVisitors
    then num_div
           (Math_round
              (num_mul
                 (num_mul
                    (num_div (num_of_Z totalContacts) (num_of_Z totalVisitors))
                    (num_of_Z 100))
                 (num_of_Z 100)))
           (num_of_Z 100)
    else num_of_Z 0 in
  let topPages :=
    limit 5
      (orderBy (desc views)
         (groupBy_count (pageViews.path <$> pageViews_rows db))) in
  let recentSubmissions :=
    limit 5
      (orderBy (desc contactSubmissions.createdAt)
         (contactSubmissions_rows db)) in
  Resolved
    {| totalVisitors := totalVisitors;
       pageViews := totalPageViews;
       contactForms := totalContacts;
       conversionRate := conversionRate;
       topPages := topPages;
       recentSubmissions := recentSubmissions;
       monthlyStats := [] |}.

Definition createClient (client : JObj) (db : Database)
    : Promise Client * Database :=
  let newClient := {| clients.id := clients_seq db; clients.data := client |} in
  (Resolved newClient,
   with_clients (clients_rows db ++ [newClient]) (clients_seq db + 1) db).

Definition getClientProjects (clientId : Z) (db : Database)
    : Promise (list Project) :=
  Resolved (filter (λ r, projects.clientId r = clientId) (projects_rows db)).

(** The insert is rejected when [clientId] is not an integer or references
    no client (the foreign key of the specification's data model); the
    identifier drawn for the row is used up all the same. *)
Definition createProject (project : JObj) (db : Database)
    : Promise Project * Database :=
  match project !! "clientId" with
  | Some (JNum c) =>
      if decide (c ∈ clients.id <$> clients_rows db) then
        let newProject :=
          {| projects.id := projects_seq db;
             projects.clientId := c;
             projects.status :=
               match project !! "status" with
               | Some (JStr s) => s
               | _ => "planning"
               end;
             projects.data := delete "status" (delete "clientId" project) |} in
        (Resolved newProject,
         with_projects (projects_rows db ++ [newProject])
           (projects_seq db + 1) db)
      else
        (Rejected (StoreError "projects.client_id references no client"),
         with_projects (projects_rows db) (projects_seq db + 1) db)
  | _ =>
      (Rejected (StoreError "projects.client_id is not an integer"),
       with_projects (projects_rows db) (projects_seq db + 1) db)
  end.

Definition getAvailableEngineers (db : Database) : Promise (list Engineer) :=
  Resolved
    (filter (λ r, engineers.availability r = "available") (engineers_rows db)).

(** [if (assignedTo)]: an absent argument and 0 are falsy. *)
Definition truthy (assignedTo : option Z) : bool :=
  match assignedTo with
  | Some a => negb (a =? 0)
  | None => false
  end.

(** [updateData]: [status] and [updatedAt] always, [assignedTo] when truthy. *)
Definition updateData (status : string) (assignedTo : option Z) (now : Z)
    (r : ContactSubmission) : ContactSubmission :=
  {| contactSubmissions.id := contactSubmissions.id r;
     contactSubmissions.data := contactSubmissions.data r;
     contactSubmissions.status := status;
     contactSubmissions.assignedTo :=
       if truthy assignedTo then assignedTo else contactSubmissions.assignedTo r;
     contactSubmissions.createdAt := contactSubmissions.createdAt r;
     contactSubmissions.updatedAt := now |}.

(** [const [updated] = await db.update(..)..returning(); return updated]:
    the first updated row, [None] standing for [undefined] when the update
    returned no row.  [NaN] and [Infinity] are not values of the integer
    column and the store rejects the statement. *)
Definition updateContactSubmissionStatus (id : Num) (status : string)
    (assignedTo : option Z) (now : Z) (db : Database)
    : Promise (option ContactSubmission) * Database :=
  match id with
  | Int i =>
      let '(rows, returning) :=
        update_where (λ r, contactSubmissions.id r = i)
          (updateData status assignedTo now) (contactSubmissions_rows db) in
      let updated := head returning in
      (Resolved updated,
       with_contactSubmissions rows (contactSubmissions_seq db) db)
  | NaN | Infinity =>
      (Rejected (StoreError "invalid input syntax for type integer"), db)
  end.

(** ** The results of the ordered statements

    [getContactSubmissions()] and the two ordered statements of
    [getAnalyticsDashboard()] with the order of equal keys left to the
    store: the listing is any descending order of the submissions, and the
    dashboard is the computed one with [topPages] and [recentSubmissions]
    the first five rows of any descending order of the groups and of the
    submissions. *)

Definition getContactSubmissions_may_return (db : Database)
    (submissions : list ContactSubmission) : Prop :=
  ordered_desc contactSubmissions.createdAt (contactSubmissions_rows db)
    submissions.

Definition getAnalyticsDashboard_may_return (db : Database)
    (dashboard : Dashboard) : Prop :=
  ∃ computed ranking sorted,
    getAnalyticsDashboard db = Resolved computed ∧
    ordered_desc views
      (groupBy_count (pageViews.path <$> pageViews_rows db)) ranking ∧
    ordered_desc contactSubmissions.createdAt (contactSubmissions_rows db)
      sorted ∧
    dashboard
    = {| totalVisitors := totalVisitors computed;
         pageViews := pageViews computed;
         contactForms := contactForms computed;
         conversionRate := conversionRate computed;
         topPages := limit 5 ranking;
         recentSubmissions := limit 5 sorted;
         monthlyStats := monthlyStats computed |}.

(** ** The route layer: [registerRoutes] *)

Record Response (B : Type) := { statusCode : Z; body : B }.

Arguments statusCode {B} r.
Arguments body {B} r.

(** The JSON bodies the handlers send: [Json v] is [v] itself, [Ok p] is
    [{success: true, ...p}], [Invalid m es] is [{success: false, message: m,
    errors: es}] and [Failed m] is [{success: false, message: m}]. *)
Inductive Body (P : Type) :=
  | Json (value : P)
  | Ok (payload : P)
  | Invalid (message : option string) (errors : list ZodIssue)
  | Failed (message : string).

Arguments Json {P} value.
Arguments Ok {P} payload.
Arguments Invalid {P} message errors.
Arguments Failed {P} message.

Definition success {P} (b : Body P) : option bool :=
  match b with
  | Json _ => None
  | Ok _ => Some true
  | Invalid _ _ | Failed _ => Some false
  end.

(** [res.json(b)] and [res.status(c).json(b)]. *)
Definition res_json {P} (b : Body P) : Response (Body P) :=
  {| statusCode := 200; body := b |}.

Definition res_status_json {P} (c : Z) (b : Body P) : Response (Body P) :=
  {| statusCode := c; body := b |}.

(** The [catch] block of the validating handlers. *)
Definition catch_validation {P} (message400 : option string)
    (message500 : string) (error : Thrown) : Response (Body P) :=
  match error with
  | ZodError errors => res_status_json 400 (Invalid message400 errors)
  | _ => res_status_json 500 (Failed message500)
  end.

(** The [catch] block of the other handlers. *)
Definition catch_all {P} (message500 : string) (error : Thrown)
    : Response (Body P) :=
  res_status_json 500 (Failed message500).

Record ContactAccepted := { message : string; submissionId : Z }.

Section Routes.

(** The insert schemas of [@shared/schema] are not part of the sources: the
    contact and client schemas are arbitrary, and so are the columns of a
    page view and of a project beyond those the storage layer names. *)
Variable insertContactSubmissionSchema : Shape.
Variable insertClientSchema : Shape.
Variable pageViewColumns : Shape.
Variable projectColumns : Shape.

(** Modelled from the spec: the page-view schema has the text column
    [path]. *)
Definition insertPageViewSchema : Shape :=
  {| fname := "path"; fkind := KString; frequired := true |}
    :: pageViewColumns.

(** Modelled from the spec: the project schema has the integer column
    [clientId] and the text column [status], which has a default. *)
Definition insertProjectSchema : Shape :=
  {| fname := "clientId"; fkind := KNumber; frequired := true |}
    :: {| fname := "status"; fkind := KString; frequired := false |}
    :: projectColumns.

(** [POST /api/contact] *)
Definition post_api_contact (req_body : JObj) (now : Z) (db : Database)
    : Response (Body ContactAccepted) * Database :=
  let catch :=
    catch_validation (Some "Please check your form data")
      "An error occurred while submitting your form. Please try again." in
  match parse insertContactSubmissionSchema req_body with
  | Resolved validatedData =>
      match createContactSubmission validatedData now db with
      | (Resolved submission, db') =>
          (res_json
             (Ok {| message :=
                      "Contact form submitted successfully. We'll get back to you within 48 hours!";
                    submissionId := contactSubmissions.id submission |}),
           db')
      | (Rejected error, db') => (catch error, db')
      end
  | Rejected error => (catch error, db)
  end.

(** [GET /api/contact-submissions] *)
Definition get_api_contact_submissions (db : Database)
    : Response (Body (list ContactSubmission)) :=
  match getContactSubmissions db with
  | Resolved submissions => res_json (Json submissions)
  | Rejected error => catch_all "Failed to retrieve contact submissions" error
  end.

(** [POST /api/analytics/pageview] *)
Definition post_api_analytics_pageview (req_body : JObj) (now : Z)
    (db : Database) : Response (Body Z) * Database :=
  let catch := catch_validation None "Failed to track page view" in
  match parse insertPageViewSchema req_body with
  | Resolved validatedData =>
      match createPageView validatedData now db with
      | (Resolved pageView, db') => (res_json (Ok (pageViews.id pageView)), db')
      | (Rejected error, db') => (catch error, db')
      end
  | Rejected error => (catch error, db)
  end.

(** [GET /api/analytics/dashboard] *)
Definition get_api_analytics_dashboard (db : Database)
    : Response (Body Dashboard) :=
  match getAnalyticsDashboard db with
  | Resolved dashboardData => res_json (Json dashboardData)
  | Rejected error => catch_all "Failed to retrieve analytics data" error
  end.

(** [POST /api/client] *)
Definition post_api_client (req_body : JObj) (db : Database)
    : Response (Body Client) * Database :=
  let catch := catch_validation None "Failed to create client" in
  match parse insertClientSchema req_body with
  | Resolved validatedData =>
      match createClient validatedData db with
      | (Resolved client, db') => (res_json (Ok client), db')
      | (Rejected error, db') => (catch error, db')
      end
  | Rejected error => (catch error, db)
  end.


(** [POST /api/client/projects]: [{...req.body, clientId: 1, status:
    "planning"}], the two literal properties written after the spread. *)
Definition post_api_client_projects (req_body : JObj) (db : Database)
    : Response (Body Project) * Database :=
  let catch := catch_validation None "Failed to create project" in
  let projectData :=
    <["status" := JStr "planning"]> (<["clientId" := JNum 1]> req_body) in
  match parse insertProjectSchema projectData with
  | Resolved validatedData =>
      match createProject validatedData db with
      | (Resolved project, db') => (res_json (Ok project), db')
      | (Rejected error, db') => (catch error, db')
      end
  | Rejected error => (catch error, db)
  end.

(** [GET /api/engineers/available] *)
Definition get_api_engineers_available (db : Database)
    : Response (Body (list Engineer)) :=
  match getAvailableEngineers db with
  | Resolved engineers => res_json (Json engineers)
  | Rejected error => catch_all "Failed to retrieve engineers" error
  end.

(** [PATCH /api/contact-submissions/:id], for a body whose [status] is a
    string and whose [assignedTo] is absent or an integer. *)
Definition patch_api_contact_submissions (req_params_id : string)
    (status : string) (assignedTo : option Z) (now : Z) (db : Database)
    : Response (Body (option ContactSubmission)) * Database :=
  let id := parseInt req_params_id in
  match updateContactSubmissionStatus id status assignedTo now db with
  | (Resolved submission, db') => (res_json (Ok submission), db')
  | (Rejected error, db') =>
      (catch_all "Failed to update submission" error, db')
  end.

End Routes.

(** ** The conversion rate as the specification words it

    [round(contactForms / totalVisitors * 100, 2 decimal places)] when
    [totalVisitors > 0], else 0: the percentage in exact arithmetic, rounded
    to the nearest number of hundredths, and the JavaScript number written
    with those two decimals.  The specification does not name the rounding
    of a tie; it is a parameter, with the two usual choices. *)

Definition hundredths_half_up (contactForms totalVisitors : Z) : Z :=
  (2 * (10000 * contactForms) + totalVisitors) / (2 * totalVisitors).

Definition hundredths_half_even (contactForms totalVisitors : Z) : Z :=
  let q := (10000 * contactForms) / totalVisitors in
  let r := (10000 * contactForms) mod totalVisitors in
  if 2 * r <? totalVisitors then q
  else if totalVisitors <? 2 * r then q + 1
  else if Z.even q then q else q + 1.

Definition conversionRate_spec (hundredths : Z → Z → Z)
    (contactForms totalVisitors : Z) : number :=
  if 0 <? totalVisitors
  then num_div (num_of_Z (hundredths contactForms totalVisitors)) (num_of_Z 100)
  else num_of_Z 0.

(** ** Store invariant

    Primary keys are unique and below the next value of their sequence, and
    every project references a client. *)
Record wf_db (db : Database) : Prop := {
  wf_contactSubmissions_key :
    NoDup (contactSubmissions.id <$> contactSubmissions_rows db);
  wf_contactSubmissions_seq :
    ∀ r, r ∈ contactSubmissions_rows db →
         contactSubmissions.id r < contactSubmissions_seq db;
  wf_pageViews_key : NoDup (pageViews.id <$> pageViews_rows db);
  wf_pageViews_seq :
    ∀ r, r ∈ pageViews_rows db → pageViews.id r < pageViews_seq db;
  wf_clients_key : NoDup (clients.id <$> clients_rows db);
  wf_clients_seq :
    ∀ r, r ∈ clients_rows db → clients.id r < clients_seq db;
  wf_projects_key : NoDup (projects.id <$> projects_rows db);
  wf_projects_seq :
    ∀ r, r ∈ projects_rows db → projects.id r < projects_seq db;
  wf_projects_client :
    ∀ r, r ∈ projects_rows db →
         projects.clientId r ∈ clients.id <$> clients_rows db;
  wf_engineers_key : NoDup (engineers.id <$> engineers_rows db) }.

(** ** Users and events

    No handler reads or writes these two tables, and no statement touches
    both; the statements on them act on the part of the store that holds
    their table. *)

(** Modelled from the spec: the [users] and [events] tables of
    [@shared/schema] are not part of the sources.  A user has a serial
    identifier, a unique [username] and a [password]; an event has a serial
    identifier and the inserted columns. *)
Module users.
Record row := { id : Z; username : string; password : string }.
End users.

Module events.
Record row := { id : Z; data : JObj }.
End events.

Abbreviation User := users.row.
Abbreviation Event := events.row.

Record InsertUser := { username : string; password : string }.

Record UsersTable := { users_rows : list User; users_seq : Z }.


(** [const [user] = await db.select()...; return user || undefined]: the
    first selected row; a row is an object, hence truthy. *)
Definition getUser (id : Z) (db : UsersTable) : Promise (option User) :=
  let user := head (filter (λ r, users.id r = id) (users_rows db)) in
  Resolved user.

Definition getUserByUsername (username : string) (db : UsersTable)
    : Promise (option User) :=
  let user :=
    head (filter (λ r, users.username r = username) (users_rows db)) in
  Resolved user.

(** The insert is rejected when the [username] is taken (the unique column
    of the specification's data model); the identifier drawn for the row is
    used up all the same. *)
Definition createUser (insertUser : InsertUser) (db : UsersTable)
    : Promise User * UsersTable :=
  if decide (username insertUser ∈ users.username <$> users_rows db) then
    (Rejected (StoreError "users.username is not unique"),
     {| users_rows := users_rows db; users_seq := users_seq db + 1 |})
  else
    let user :=
      {| users.id := users_seq db;
         users.username := username insertUser;
         users.password := password insertUser |} in
    (Resolved user,
     {| users_rows := users_rows db ++ [user];
        users_seq := users_seq db + 1 |}).


Section EventRoute.

(** The event schema of [@shared/schema] is not part of the sources; it is
    arbitrary. *)
Variable insertEventSchema : Shape.


End EventRoute.

(** Primary keys of the two tables are unique and below the next value of
    their sequence, and no two users share a [username]. *)
Record wf_users (db : UsersTable) : Prop := {
  wf_users_key : NoDup (users.id <$> users_rows db);
  wf_users_seq : ∀ r, r ∈ users_rows db → users.id r < users_seq db;
  wf_users_username : NoDup (users.username <$> users_rows db) }.

(** The sum of the [views] of a list of page counts. *)
Definition total_views (pages : list PageCount) : Z :=
  foldr (λ e acc, views e + acc) 0 pages.


(** ** Sample requests and stores *)

Definition sample_contact_schema : Shape :=
  [ {| fname := "name"; fkind := KString; frequired := true |};
    {| fname := "email"; fkind := KString; frequired := true |};
    {| fname := "message"; fkind := KString; frequired := true |};
    {| fname := "company"; fkind := KString; frequired := false |} ].

Definition sample_contact_body : JObj :=
  list_to_map
    [ ("name", JStr "Ada"); ("email", JStr "ada@example.org");
      ("message", JStr "Please call back"); ("utm", JStr "newsletter") ].

Definition sample_incomplete_body : JObj :=
  list_to_map [ ("name", JStr "Ada"); ("message", JStr "Please call back") ].

(** Two submissions, created at times 10 and 20. *)
Definition sample_submissions_db : Database :=
  (createContactSubmission sample_contact_body 20
     (createContactSubmission sample_contact_body 10 empty_db).2).2.

(** Two submissions created at the same time 10, and a dashboard that lists
    the second before the first. *)
Definition sample_tie_db : Database :=
  (createContactSubmission sample_contact_body 10
     (createContactSubmission sample_contact_body 10 empty_db).2).2.

Definition sample_tie_first : ContactSubmission :=
  {| contactSubmissions.id := 1;
     contactSubmissions.data := sample_contact_body;
     contactSubmissions.status := "new";
     contactSubmissions.assignedTo := None;
     contactSubmissions.createdAt := 10;
     contactSubmissions.updatedAt := 10 |}.

Definition sample_tie_second : ContactSubmission :=
  {| contactSubmissions.id := 2;
     contactSubmissions.data := sample_contact_body;
     contactSubmissions.status := "new";
     contactSubmissions.assignedTo := None;
     contactSubmissions.createdAt := 10;
     contactSubmissions.updatedAt := 10 |}.

Definition sample_tie_dashboard : Dashboard :=
  {| totalVisitors := 0;
     pageViews := 0;
     contactForms := 2;
     conversionRate := S754_zero false;
     topPages := [];
     recentSubmissions := [sample_tie_second; sample_tie_first];
     monthlyStats := [] |}.

Definition sample_submission : ContactSubmission :=
  {| contactSubmissions.id := 1;
     contactSubmissions.data := sample_contact_body;
     contactSubmissions.status := "new";
     contactSubmissions.assignedTo := None;
     contactSubmissions.createdAt := 10;
     contactSubmissions.updatedAt := 10 |}.

Definition visit (p : string) (db : Database) : Database :=
  (createPageView {[ "path" := JStr p ]} 0 db).2.

Definition submit (db : Database) : Database :=
  (createContactSubmission sample_contact_body 0 db).2.

(** 160 page views and 23 submissions. *)
Definition sample_traffic_db : Database :=
  Nat.iter 23 submit (Nat.iter 160 (visit "/") empty_db).

(** Six page views, created in the order /b /a /a /b /a /a. *)
Definition sample_pages_db : Database :=
  visit "/a" (visit "/a" (visit "/b" (visit "/a" (visit "/a"
    (visit "/b" empty_db))))).

Definition sample_project_columns : Shape :=
  [ {| fname := "name"; fkind := KString; frequired := true |} ].

(** A body that supplies its own [clientId] and [status]. *)
Definition sample_project_body : JObj :=
  list_to_map
    [ ("name", JStr "Website"); ("clientId", JNum 99);
      ("status", JStr "completed") ].

Definition sample_client_db : Database :=
  (createClient {[ "company" := JStr "Acme" ]} empty_db).2.

Definition sample_engineers_db : Database :=
  {| contactSubmissions_rows := []; contactSubmissions_seq := 1;
     pageViews_rows := []; pageViews_seq := 1;
     clients_rows := []; clients_seq := 1;
     projects_rows := []; projects_seq := 1;
     engineers_rows :=
       [ {| engineers.id := 1; engineers.availability := "available";
            engineers.data := ∅ |};
         {| engineers.id := 2; engineers.availability := "busy";
            engineers.data := ∅ |} ] |}.

Definition sample_pageview_body : JObj :=
  list_to_map [ ("path", JStr "/a"); ("referrer", JStr "https://example.org") ].

(** Two users, ada and grace. *)
Definition sample_users : UsersTable :=
  (createUser {| username := "grace"; password := "hopper" |}
     (createUser {| username := "ada"; password := "lovelace" |}
        {| users_rows := []; users_seq := 1 |}).2).2.

(** * Properties *)

#[local] Arguments limit : simpl never.
#[local] Arguments orderBy : simpl never.
#[local] Arguments groupBy_count : simpl never.
#[local] Arguments count : simpl never.

Section Ordering.
Context {A : Type} (key : A → Z).

#[global] Instance desc_transitive : Transitive (desc key).
Proof. intros a b c. unfold desc. lia. Qed.

#[global] Instance desc_total : Total (desc key).
Proof. intros a b. unfold desc. lia. Qed.

Lemma orderBy_Permutation (tbl : list A) : orderBy (desc key) tbl ≡ₚ tbl.
Proof. apply merge_sort_Permutation. Qed.

Lemma orderBy_sorted (tbl : list A) :
  StronglySorted (desc key) (orderBy (desc key) tbl).
Proof. apply StronglySorted_merge_sort; apply _. Qed.

Lemma elem_of_orderBy (tbl : list A) r : r ∈ orderBy (desc key) tbl ↔ r ∈ tbl.
Proof. by rewrite orderBy_Permutation. Qed.

(** Whatever [limit] cuts off ranks no higher than what it keeps. *)
Lemma limit_orderBy_top (n : nat) (tbl : list A) r r' :
  r ∈ limit n (orderBy (desc key) tbl) →
  r' ∈ drop n (orderBy (desc key) tbl) →
  key r' ≤ key r.
Proof.
  intros Hr Hr'. unfold limit in Hr.
  pose proof (orderBy_sorted tbl) as Hs.
  rewrite <- (take_drop n (orderBy (desc key) tbl)) in Hs.
  exact (StronglySorted_app_1_elem_of _ _ _ r r' Hs Hr Hr').
Qed.

End Ordering.

(** ** The store invariant is kept *)

Lemma NoDup_key_snoc {A} (key : A → Z) (tbl : list A) (r : A) :
  NoDup (key <$> tbl) → (∀ x, x ∈ tbl → key x < key r) →
  NoDup (key <$> tbl ++ [r]).
Proof.
  intros Hnd Hlt. rewrite fmap_app. apply NoDup_app. split; [done|]. split.
  - intros k Hk Hk'. apply list_elem_of_fmap in Hk as (x & -> & Hx).
    apply list_elem_of_singleton in Hk'. specialize (Hlt x Hx). lia.
  - apply NoDup_singleton.
Qed.

Lemma key_lt_snoc {A} (key : A → Z) (tbl : list A) (r : A) :
  (∀ x, x ∈ tbl → key x < key r) →
  ∀ x, x ∈ tbl ++ [r] → key x < key r + 1.
Proof.
  intros Hlt x Hx. apply elem_of_app in Hx as [Hx|Hx].
  - specialize (Hlt x Hx). lia.
  - apply list_elem_of_singleton in Hx as ->. lia.
Qed.

Lemma wf_empty_db : wf_db empty_db.
Proof.
  split; simpl; try apply NoDup_nil_2; intros r Hr; by apply elem_of_nil in Hr.
Qed.

Lemma createContactSubmission_wf (insertSubmission : JObj) (now : Z)
    (db : Database) :
  wf_db db → wf_db (createContactSubmission insertSubmission now db).2.
Proof.
  intros []. split; simpl; try done.
  - by apply NoDup_key_snoc.
  - by apply (key_lt_snoc contactSubmissions.id).
Qed.

(** A rejected insert has used up an identifier: the invariant still
    holds. *)
Lemma wf_pageViews_seq_used (db : Database) :
  wf_db db →
  wf_db (with_pageViews (pageViews_rows db) (pageViews_seq db + 1) db).
Proof.
  intros []. split; simpl; try done.
  intros r Hr. specialize (wf_pageViews_seq0 r Hr). lia.
Qed.

Lemma wf_projects_seq_used (db : Database) :
  wf_db db →
  wf_db (with_projects (projects_rows db) (projects_seq db + 1) db).
Proof.
  intros []. split; simpl; try done.
  intros r Hr. specialize (wf_projects_seq0 r Hr). lia.
Qed.

Lemma createPageView_wf (pageView : JObj) (now : Z) (db : Database) :
  wf_db db → wf_db (createPageView pageView now db).2.
Proof.
  intros Hwf. unfold createPageView.
  destruct (pageView !! "path") as [[| | |p]|];
    try by apply wf_pageViews_seq_used.
  destruct Hwf. split; simpl; try done.
  - by apply NoDup_key_snoc.
  - by apply (key_lt_snoc pageViews.id).
Qed.

Lemma createClient_wf (client : JObj) (db : Database) :
  wf_db db → wf_db (createClient client db).2.
Proof.
  intros []. split; simpl; try done.
  - by apply NoDup_key_snoc.
  - by apply (key_lt_snoc clients.id).
  - intros r Hr. rewrite fmap_app. apply elem_of_app. left. auto.
Qed.

Lemma createProject_wf (project : JObj) (db : Database) :
  wf_db db → wf_db (createProject project db).2.
Proof.
  intros Hwf. unfold createProject.
  destruct (project !! "clientId") as [[| |c|]|];
    try by apply wf_projects_seq_used.
  destruct (decide _) as [Hc|]; [|by apply wf_projects_seq_used].
  destruct Hwf. split; simpl; try done.
  - by apply NoDup_key_snoc.
  - by apply (key_lt_snoc projects.id).
  - intros r Hr. apply elem_of_app in Hr as [Hr|Hr]; [auto|].
    by apply list_elem_of_singleton in Hr as ->.
Qed.

Lemma update_where_keys {A} (key : A → Z) (P : A → Prop)
    `{∀ r, Decision (P r)} (set : A → A) (tbl : list A) :
  (∀ r, key (set r) = key r) →
  key <$> (update_where P set tbl).1 = key <$> tbl.
Proof.
  intros Hkey. unfold update_where. simpl. rewrite <- list_fmap_compose.
  apply list_fmap_ext. intros i r _. simpl. by destruct (decide (P r)).
Qed.

Lemma updateContactSubmissionStatus_wf (id : Num) (status : string)
    (assignedTo : option Z) (now : Z) (db : Database) :
  wf_db db →
  wf_db (updateContactSubmissionStatus id status assignedTo now db).2.
Proof.
  intros Hwf. destruct id as [|i|]; [done| |done].
  unfold updateContactSubmissionStatus.
  destruct (update_where _ _ _) as [rows returning] eqn:Hupd.
  assert (contactSubmissions.id <$> rows
          = contactSubmissions.id <$> contactSubmissions_rows db) as Hkeys.
  { apply (f_equal fst) in Hupd. simpl in Hupd. rewrite <- Hupd.
    by apply (update_where_keys contactSubmissions.id). }
  destruct Hwf. split; simpl; try done.
  - by rewrite Hkeys.
  - intros r Hr. apply (list_elem_of_fmap_2 contactSubmissions.id) in Hr.
    rewrite Hkeys in Hr. apply list_elem_of_fmap in Hr as (x & -> & Hx). auto.
Qed.

(** ** Dashboard counters *)

(** C3: in the object returned by [getAnalyticsDashboard()], [pageViews]
    equals [totalVisitors], and both are the number of PageView rows. *)
Theorem dashboard_pageViews_eq_totalVisitors (db : Database) :
  ∃ dashboard,
    getAnalyticsDashboard db = Resolved dashboard ∧
    pageViews dashboard = totalVisitors dashboard ∧
    totalVisitors dashboard = Z.of_nat (length (pageViews_rows db)) ∧
    pageViews dashboard = Z.of_nat (length (pageViews_rows db)).
Proof. eexists. split; [reflexivity|]. by simpl. Qed.

(** ** Client portal reads *)

Lemma createClient_resolves (client : JObj) (db : Database) :
  ∃ c, createClient client db
       = (Resolved c,
          with_clients (clients_rows db ++ [c]) (clients_seq db + 1) db) ∧
       clients.id c = clients_seq db ∧ clients.data c = client.
Proof. by eexists. Qed.

Lemma createProject_resolved (project : JObj) (db db' : Database) (p : Project) :
  createProject project db = (Resolved p, db') →
  project !! "clientId" = Some (JNum (projects.clientId p)) ∧
  projects.clientId p ∈ clients.id <$> clients_rows db ∧
  projects.id p = projects_seq db ∧
  db' = with_projects (projects_rows db ++ [p]) (projects_seq db + 1) db.
Proof.
  unfold createProject. intros H.
  destruct (project !! "clientId") as [[| |c|]|]; try discriminate.
  destruct (decide _) as [Hin|]; [|discriminate].
  by simplify_eq.
Qed.

Lemma createProject_resolves (project : JObj) (db : Database) (c : Z) :
  project !! "clientId" = Some (JNum c) →
  c ∈ clients.id <$> clients_rows db →
  ∃ p, createProject project db
       = (Resolved p,
          with_projects (projects_rows db ++ [p]) (projects_seq db + 1) db) ∧
       projects.clientId p = c ∧ projects.id p = projects_seq db.
Proof.
  intros Hc Hin. unfold createProject. rewrite Hc.
  rewrite decide_True by done. by eexists.
Qed.

(** C7: [getClientProjects(clientId)] returns exactly the projects whose
    [clientId] equals the argument, in table order and each once, and the
    empty sequence when none matches; a project created for the client that
    [createClient] has just returned is stored, is included in that
    client's projects, and every project in that result has that client's
    identifier. *)
Theorem getClientProjects_exact (clientId : Z) (db : Database) :
  (∃ ps, getClientProjects clientId db = Resolved ps ∧
     (∀ p, p ∈ ps ↔ p ∈ projects_rows db ∧ projects.clientId p = clientId) ∧
     ps `sublist_of` projects_rows db ∧
     ((∀ p, p ∈ projects_rows db → projects.clientId p ≠ clientId) →
      ps = [])) ∧
  (∀ (client project : JObj) (c : Client) (db1 : Database),
     createClient client db = (Resolved c, db1) →
     project !! "clientId" = Some (JNum (clients.id c)) →
     ∃ p db2 ps,
       createProject project db1 = (Resolved p, db2) ∧
       getClientProjects (clients.id c) db2 = Resolved ps ∧
       p ∈ projects_rows db2 ∧
       p ∈ ps ∧
       (∀ q, q ∈ ps → projects.clientId q = clients.id c) ∧
       (∀ q, q ∈ projects_rows db2 → projects.clientId q ≠ clients.id c →
             q ∉ ps)).
Proof.
  split.
  - eexists. split; [reflexivity|]. split; [|split].
    + intros p. by rewrite list_elem_of_filter, (comm (∧)).
    + apply sublist_filter.
    + intros Hnone. apply elem_of_nil_inv. intros p.
      rewrite list_elem_of_filter. intros [Hp Hin]. by apply (Hnone p).
  - intros client project c db1 Hc Hproj.
    destruct (createClient_resolves client db) as (c' & Hc' & Hid & _).
    rewrite Hc' in Hc. simplify_eq.
    destruct (createProject_resolves project
                (with_clients (clients_rows db ++ [c]) (clients_seq db + 1) db)
                (clients.id c) Hproj) as (p & Hp & Hpc & _).
    { simpl. rewrite fmap_app. set_solver. }
    eexists p, _, _. split; [exact Hp|]. split; [reflexivity|]. simpl.
    split; [set_solver|]. split; [|split].
    + rewrite list_elem_of_filter. set_solver.
    + intros q. rewrite list_elem_of_filter. tauto.
    + intros q _ Hne. rewrite list_elem_of_filter. tauto.
Qed.

(** C8: [getAvailableEngineers()] returns exactly the engineers whose
    [availability] is the string ["available"], in table order and each once;
    an engineer whose availability is ["busy"] is never in the result. *)
Theorem getAvailableEngineers_exact (db : Database) :
  ∃ es, getAvailableEngineers db = Resolved es ∧
    (∀ e, e ∈ es ↔
          e ∈ engineers_rows db ∧ engineers.availability e = "available") ∧
    es `sublist_of` engineers_rows db ∧
    (∀ e, engineers.availability e = "busy" → e ∉ es).
Proof.
  eexists. split; [reflexivity|]. split; [|split].
  - intros e. by rewrite list_elem_of_filter, (comm (∧)).
  - apply sublist_filter.
  - intros e Hbusy. rewrite list_elem_of_filter. intros [Hav _].
    rewrite Hbusy in Hav. discriminate.
Qed.

(** ** Updating a submission *)

Lemma update_where_rows {A} (P : A → Prop) `{∀ r, Decision (P r)}
    (set : A → A) (tbl : list A) (i : nat) :
  (update_where P set tbl).1 !! i
  = (λ r, if decide (P r) then set r else r) <$> tbl !! i.
Proof. unfold update_where. simpl. apply list_lookup_fmap. Qed.

Lemma update_where_none {A} (P : A → Prop) `{∀ r, Decision (P r)}
    (set : A → A) (tbl : list A) :
  (∀ r, r ∈ tbl → ¬ P r) → update_where P set tbl = (tbl, []).
Proof.
  intros Hnone. unfold update_where. f_equal.
  - induction tbl as [|r tbl IH]; [done|]. simpl.
    rewrite decide_False by (apply Hnone; left).
    f_equal. apply IH. intros r' Hr'. apply Hnone. by right.
  - induction tbl as [|r tbl IH]; [done|].
    rewrite filter_cons_False by (apply Hnone; left).
    apply IH. intros r' Hr'. apply Hnone. by right.
Qed.

(** With a unique key, the update returns exactly the one row that has it. *)
Lemma filter_key_unique {A} (key : A → Z) (tbl : list A) (r : A) :
  NoDup (key <$> tbl) → r ∈ tbl →
  filter (λ x, key x = key r) tbl = [r].
Proof.
  induction tbl as [|x tbl IH]; intros Hnd Hin; [by apply elem_of_nil in Hin|].
  rewrite fmap_cons in Hnd. apply NoDup_cons in Hnd as [Hx Hnd].
  apply elem_of_cons in Hin as [->|Hin].
  - rewrite filter_cons_True by done. f_equal.
    apply elem_of_nil_inv. intros y. rewrite list_elem_of_filter.
    intros [Hy Hyin]. apply Hx. rewrite <- Hy. by apply list_elem_of_fmap_2.
  - rewrite filter_cons_False; [by apply IH|].
    intros Hk. apply Hx. rewrite Hk. by apply list_elem_of_fmap_2.
Qed.

Lemma key_unique {A} (key : A → Z) (tbl : list A) (x r : A) :
  NoDup (key <$> tbl) → x ∈ tbl → r ∈ tbl → key x = key r → x = r.
Proof.
  intros Hnd Hx Hr Hk.
  assert (x ∈ filter (λ y, key y = key r) tbl) as Hin
    by by apply list_elem_of_filter.
  rewrite (filter_key_unique key tbl r Hnd Hr) in Hin.
  by apply list_elem_of_singleton in Hin.
Qed.

Lemma with_contactSubmissions_id (db : Database) :
  with_contactSubmissions (contactSubmissions_rows db)
    (contactSubmissions_seq db) db = db.
Proof. by destruct db. Qed.

Lemma updateContactSubmissionStatus_found (db : Database)
    (r : ContactSubmission) (status : string) (assignedTo : option Z)
    (now : Z) :
  NoDup (contactSubmissions.id <$> contactSubmissions_rows db) →
  r ∈ contactSubmissions_rows db →
  ∃ rows,
    updateContactSubmissionStatus (Int (contactSubmissions.id r)) status
      assignedTo now db
    = (Resolved (Some (updateData status assignedTo now r)),
       with_contactSubmissions rows (contactSubmissions_seq db) db) ∧
    length rows = length (contactSubmissions_rows db) ∧
    (∀ i, contactSubmissions_rows db !! i = Some r →
          rows !! i = Some (updateData status assignedTo now r)) ∧
    (∀ i x, contactSubmissions_rows db !! i = Some x → x ≠ r →
            rows !! i = Some x).
Proof.
  intros Hnd Hin. unfold updateContactSubmissionStatus.
  destruct (update_where _ _ _) as [rows returning] eqn:Hupd.
  exists rows.
  assert (returning = [updateData status assignedTo now r]) as ->.
  { apply (f_equal snd) in Hupd. simpl in Hupd. subst returning.
    by rewrite (filter_key_unique contactSubmissions.id _ r Hnd Hin). }
  split; [reflexivity|].
  assert (∀ i, rows !! i
               = (λ x, if decide (contactSubmissions.id x
                                  = contactSubmissions.id r)
                       then updateData status assignedTo now x else x)
                   <$> contactSubmissions_rows db !! i) as Hrows.
  { intros i. apply (f_equal fst) in Hupd. simpl in Hupd. subst rows.
    apply list_lookup_fmap. }
  split; [|split].
  - apply (f_equal fst) in Hupd. simpl in Hupd. subst rows.
    apply length_fmap.
  - intros i Hi. rewrite Hrows, Hi. simpl. by rewrite decide_True.
  - intros i x Hi Hne. rewrite Hrows, Hi. simpl.
    rewrite decide_False; [done|].
    intros Hk. apply Hne.
    apply (key_unique contactSubmissions.id (contactSubmissions_rows db));
      eauto using list_elem_of_lookup_2.
Qed.

(** C2: for an existing submission [r] (identifiers being unique),
    [updateContactSubmissionStatus(r.id, status)] without [assignedTo]
    returns [r] with [status] set to the given value and [updatedAt] set to
    the current time, its [assignedTo] and all other fields as before; that
    row takes the place of [r] in the table, every other row and every other
    table is unchanged; with an argument, [assignedTo] is written exactly
    when the argument is present and not 0. *)
Theorem updateContactSubmissionStatus_existing (db : Database)
    (r : ContactSubmission) (status : string) (now : Z) :
  NoDup (contactSubmissions.id <$> contactSubmissions_rows db) →
  r ∈ contactSubmissions_rows db →
  ∃ updated rows,
    updated
    = {| contactSubmissions.id := contactSubmissions.id r;
         contactSubmissions.data := contactSubmissions.data r;
         contactSubmissions.status := status;
         contactSubmissions.assignedTo := contactSubmissions.assignedTo r;
         contactSubmissions.createdAt := contactSubmissions.createdAt r;
         contactSubmissions.updatedAt := now |} ∧
    updateContactSubmissionStatus (Int (contactSubmissions.id r)) status None
      now db
    = (Resolved (Some updated),
       with_contactSubmissions rows (contactSubmissions_seq db) db) ∧
    length rows = length (contactSubmissions_rows db) ∧
    (∀ i, contactSubmissions_rows db !! i = Some r →
          rows !! i = Some updated) ∧
    (∀ i x, contactSubmissions_rows db !! i = Some x → x ≠ r →
            rows !! i = Some x) ∧
    (∀ assignedTo : option Z, ∃ u db',
       updateContactSubmissionStatus (Int (contactSubmissions.id r)) status
         assignedTo now db = (Resolved (Some u), db') ∧
       contactSubmissions.assignedTo u
       = match assignedTo with
         | Some a => if a =? 0 then contactSubmissions.assignedTo r else Some a
         | None => contactSubmissions.assignedTo r
         end).
Proof.
  intros Hnd Hin.
  destruct (updateContactSubmissionStatus_found db r status None now Hnd Hin)
    as (rows & Hupd & Hlen & Hr & Hother).
  eexists _, rows. split; [reflexivity|].
  split; [exact Hupd|]. split; [exact Hlen|].
  split; [exact Hr|]. split; [exact Hother|].
  intros assignedTo.
  destruct (updateContactSubmissionStatus_found db r status assignedTo now
              Hnd Hin) as (rows' & Hupd' & _).
  eexists _, _. split; [exact Hupd'|].
  destruct assignedTo as [a|]; simpl; [|done]. by destruct (a =? 0).
Qed.

(** C1: for an identifier that no ContactSubmission row has,
    [updateContactSubmissionStatus] does not fail: the update returns no
    row, the promise resolves with [undefined] and the store is unchanged;
    the [PATCH /api/contact-submissions/:id] handler then answers 200 with
    [success: true] and no submission, not 500. *)
Theorem patch_unknown_id_answers_success (req_params_id status : string)
    (assignedTo : option Z) (now id : Z) (db : Database) :
  parseInt req_params_id = Int id →
  id ∉ contactSubmissions.id <$> contactSubmissions_rows db →
  updateContactSubmissionStatus (Int id) status assignedTo now db
  = (Resolved None, db) ∧
  patch_api_contact_submissions req_params_id status assignedTo now db
  = ({| statusCode := 200; body := Ok None |}, db).
Proof.
  intros Hparse Hnone.
  assert (updateContactSubmissionStatus (Int id) status assignedTo now db
          = (Resolved None, db)) as Hupd.
  { unfold updateContactSubmissionStatus.
    rewrite update_where_none.
    - simpl. by rewrite with_contactSubmissions_id.
    - intros r Hr Hid. apply Hnone. rewrite <- Hid.
      by apply list_elem_of_fmap_2. }
  split; [exact Hupd|].
  unfold patch_api_contact_submissions. by rewrite Hparse, Hupd.
Qed.

(** ** Submissions, newest first *)

Section Listing.
Context {A : Type} (key : A → Z).

Lemma orderBy_ordered_desc (tbl : list A) :
  ordered_desc key tbl (orderBy (desc key) tbl).
Proof. split; [apply orderBy_Permutation | apply orderBy_sorted]. Qed.

(** The keys of a descending order do not depend on how the store orders
    rows with equal keys. *)
Lemma ordered_desc_keys (tbl l1 l2 : list A) :
  ordered_desc key tbl l1 → ordered_desc key tbl l2 →
  key <$> l1 = key <$> l2.
Proof.
  intros [Hp1 Hs1] [Hp2 Hs2].
  apply (StronglySorted_unique_strong (λ a b : Z, b ≤ a)).
  - intros x1 x2 _ _. lia.
  - by apply (StronglySorted_fmap key (desc key)).
  - by apply (StronglySorted_fmap key (desc key)).
  - by rewrite Hp1, Hp2.
Qed.

(** With distinct keys there is one descending order. *)
Lemma ordered_desc_unique (tbl l1 l2 : list A) :
  NoDup (key <$> tbl) →
  ordered_desc key tbl l1 → ordered_desc key tbl l2 → l1 = l2.
Proof.
  intros Hnd [Hp1 Hs1] [Hp2 Hs2].
  apply (StronglySorted_unique_strong (desc key));
    [|done|done|by rewrite Hp1, Hp2].
  intros x1 x2 H1 H2 H12 H21. unfold desc in H12, H21.
  rewrite Hp1 in H1. rewrite Hp2 in H2.
  apply (key_unique key tbl x1 x2 Hnd H1 H2). lia.
Qed.

(** A row that the first [n] rows leave out has no greater key than any of
    them. *)
Lemma ordered_desc_cut (n : nat) (tbl l : list A) (r r' : A) :
  ordered_desc key tbl l →
  r ∈ take n l → r' ∈ tbl → r' ∉ take n l → key r' ≤ key r.
Proof.
  intros [Hp Hs] Hr Hr' Hout.
  rewrite <- Hp, <- (take_drop n l), elem_of_app in Hr'.
  destruct Hr' as [Hr'|Hr']; [done|].
  rewrite <- (take_drop n l) in Hs.
  exact (StronglySorted_app_1_elem_of _ _ _ r r' Hs Hr Hr').
Qed.

End Listing.

(** What the storage layer computes is among the results the store may
    give. *)
Lemma getContactSubmissions_admissible (db : Database)
    (submissions : list ContactSubmission) :
  getContactSubmissions db = Resolved submissions →
  getContactSubmissions_may_return db submissions.
Proof. intros [= <-]. apply orderBy_ordered_desc. Qed.

Lemma getAnalyticsDashboard_admissible (db : Database) (dashboard : Dashboard) :
  getAnalyticsDashboard db = Resolved dashboard →
  getAnalyticsDashboard_may_return db dashboard.
Proof.
  intros Hd. eexists dashboard, _, _. split; [exact Hd|].
  split; [apply orderBy_ordered_desc|]. split; [apply orderBy_ordered_desc|].
  by injection Hd as <-.
Qed.

(** C9: whatever order the store gives to submissions created at the same
    time, [getContactSubmissions()] returns all the ContactSubmission rows
    (a rearrangement of the table) in descending [createdAt] order, and
    [recentSubmissions] of the dashboard holds rows of the table, at most
    five, with the [createdAt] values of the first five elements of that
    listing, no row left out of it being created later than a row in it;
    when no two submissions have the same [createdAt], [recentSubmissions]
    is exactly the first five elements of the listing. *)
Theorem recentSubmissions_of_listing (db : Database)
    (submissions : list ContactSubmission) (dashboard : Dashboard) :
  getContactSubmissions_may_return db submissions →
  getAnalyticsDashboard_may_return db dashboard →
  submissions ≡ₚ contactSubmissions_rows db ∧
  StronglySorted (desc contactSubmissions.createdAt) submissions ∧
  recentSubmissions dashboard ⊆+ contactSubmissions_rows db ∧
  contactSubmissions.createdAt <$> recentSubmissions dashboard
  = take 5 (contactSubmissions.createdAt <$> submissions) ∧
  (∀ r r', r ∈ recentSubmissions dashboard →
           r' ∈ contactSubmissions_rows db →
           r' ∉ recentSubmissions dashboard →
           contactSubmissions.createdAt r' ≤ contactSubmissions.createdAt r) ∧
  (NoDup (contactSubmissions.createdAt <$> contactSubmissions_rows db) →
   recentSubmissions dashboard = take 5 submissions).
Proof.
  intros Hlisting (computed & ranking & sorted & _ & _ & Hsorted & ->).
  simpl. unfold limit.
  split; [apply Hlisting|]. split; [apply Hlisting|].
  split; [|split; [|split]].
  - rewrite <- (proj1 Hsorted). apply sublist_submseteq, sublist_take.
  - rewrite fmap_take. f_equal.
    exact (ordered_desc_keys _ _ _ _ Hsorted Hlisting).
  - intros r r'. by apply ordered_desc_cut.
  - intros Hdistinct. f_equal.
    exact (ordered_desc_unique _ _ _ _ Hdistinct Hsorted Hlisting).
Qed.

(** Two submissions created at the same time: the store may list them in
    one order for [getContactSubmissions()] and in the other for the
    dashboard, whose [recentSubmissions] is then not the first five elements
    of the listing. *)
Lemma recentSubmissions_not_the_first_five :
  getContactSubmissions_may_return sample_tie_db
    [sample_tie_first; sample_tie_second] ∧
  getAnalyticsDashboard_may_return sample_tie_db sample_tie_dashboard ∧
  recentSubmissions sample_tie_dashboard
  ≠ take 5 [sample_tie_first; sample_tie_second].
Proof.
  assert (∀ a b, StronglySorted (desc contactSubmissions.createdAt) [a; b]
                 ↔ contactSubmissions.createdAt b
                   ≤ contactSubmissions.createdAt a) as Hpair.
  { intros a b. split.
    - intros Hs. apply StronglySorted_inv in Hs as [_ Hhead].
      by apply Forall_cons in Hhead as [Hle _].
    - intros Hle. repeat constructor. exact Hle. }
  split; [|split].
  - split; [reflexivity|]. by apply Hpair.
  - exists {| totalVisitors := 0; pageViews := 0; contactForms := 2;
              conversionRate := S754_zero false; topPages := [];
              recentSubmissions :=
                limit 5 (orderBy (desc contactSubmissions.createdAt)
                           (contactSubmissions_rows sample_tie_db));
              monthlyStats := [] |},
           [], [sample_tie_second; sample_tie_first].
    split; [reflexivity|]. split; [by split; [|constructor]|].
    split; [|reflexivity].
    split; [apply Permutation_swap | by apply Hpair].
  - discriminate.
Qed.

(** A path parameter without digits reaches the [catch] block: the store
    rejects the [NaN] identifier. *)
Lemma patch_non_numeric_id_answers_500 (req_params_id status : string)
    (assignedTo : option Z) (now : Z) (db : Database) :
  parseInt req_params_id = NaN →
  patch_api_contact_submissions req_params_id status assignedTo now db
  = ({| statusCode := 500; body := Failed "Failed to update submission" |},
     db).
Proof.
  intros Hparse. unfold patch_api_contact_submissions. by rewrite Hparse.
Qed.

(** ** Validation *)

Lemma parse_cases (sh : Shape) (o : JObj) :
  (sh ≫= check_field o = [] ∧ parse sh o = Resolved (strip sh o)) ∨
  (∃ issues, issues ≠ [] ∧ sh ≫= check_field o = issues ∧
             parse sh o = Rejected (ZodError issues)).
Proof.
  unfold parse. destruct (sh ≫= check_field o) as [|i rest] eqn:E.
  - by left.
  - right. by exists (i :: rest).
Qed.

Lemma parse_missing_required (sh : Shape) (o : JObj) (f : Field) :
  f ∈ sh → frequired f = true → o !! fname f = None →
  ∃ issues,
    parse sh o = Rejected (ZodError issues) ∧
    {| issue_path := fname f; issue_message := "Required" |} ∈ issues.
Proof.
  intros Hf Hreq Hmiss.
  assert ({| issue_path := fname f; issue_message := "Required" |}
            ∈ sh ≫= check_field o) as Hissue.
  { apply list_elem_of_bind. exists f. split; [|done].
    unfold check_field. rewrite Hmiss, Hreq. by left. }
  destruct (parse_cases sh o) as [[Hnil _]|(issues & _ & His & Hparse)].
  - rewrite Hnil in Hissue. by apply elem_of_nil in Hissue.
  - exists issues. split; [exact Hparse | by rewrite <- His].
Qed.

Lemma strip_lookup (sh : Shape) (o : JObj) (k : string) :
  k ∈ fname <$> sh → strip sh o !! k = o !! k.
Proof.
  intros Hk. unfold strip. apply option_eq. intros v.
  rewrite map_lookup_filter_Some. split; [by intros [? _] | by intros ?].
Qed.

Lemma parse_resolved (sh : Shape) (o validated : JObj) :
  parse sh o = Resolved validated → validated = strip sh o.
Proof.
  destruct (parse_cases sh o) as [[_ ->]|(issues & _ & _ & ->)];
    [by intros [= <-] | discriminate].
Qed.

Lemma createContactSubmission_resolves (insertSubmission : JObj) (now : Z)
    (db : Database) :
  ∃ s, createContactSubmission insertSubmission now db
       = (Resolved s,
          with_contactSubmissions (contactSubmissions_rows db ++ [s])
            (contactSubmissions_seq db + 1) db) ∧
       contactSubmissions.id s = contactSubmissions_seq db ∧
       contactSubmissions.data s = insertSubmission ∧
       contactSubmissions.status s = "new" ∧
       contactSubmissions.assignedTo s = None ∧
       contactSubmissions.createdAt s = now ∧
       contactSubmissions.updatedAt s = now.
Proof. by eexists. Qed.

(** C5: when the body validates against the contact-submission schema,
    [POST /api/contact] answers 200 with [success: true] and the identifier
    of a row that [getContactSubmissions()] then returns, the row holding the
    validated data; when a required field of the schema is missing from the
    body, it answers 400 with [success: false] and a non-empty [errors]
    list, and stores nothing. *)
Theorem post_api_contact_outcomes (insertContactSubmissionSchema : Shape)
    (req_body : JObj) (now : Z) (db : Database) :
  (∀ validatedData,
     parse insertContactSubmissionSchema req_body = Resolved validatedData →
     ∃ res db' accepted submission submissions,
       post_api_contact insertContactSubmissionSchema req_body now db
       = (res, db') ∧
       statusCode res = 200 ∧
       body res = Ok accepted ∧
       success (body res) = Some true ∧
       getContactSubmissions db' = Resolved submissions ∧
       submission ∈ submissions ∧
       contactSubmissions.id submission = submissionId accepted ∧
       contactSubmissions.data submission = validatedData) ∧
  (∀ f, f ∈ insertContactSubmissionSchema → frequired f = true →
        req_body !! fname f = None →
     ∃ res m errors,
       post_api_contact insertContactSubmissionSchema req_body now db
       = (res, db) ∧
       statusCode res = 400 ∧
       body res = Invalid m errors ∧
       success (body res) = Some false ∧
       errors ≠ []).
Proof.
  split.
  - intros validatedData Hparse. unfold post_api_contact. rewrite Hparse.
    destruct (createContactSubmission_resolves validatedData now db)
      as (submission & Hcreate & Hid & Hdata & _).
    rewrite Hcreate.
    eexists _, _, _, submission, _.
    split; [reflexivity|]. simpl.
    split; [reflexivity|]. split; [reflexivity|]. split; [reflexivity|].
    split; [reflexivity|]. split; [|by split].
    apply elem_of_orderBy. set_solver.
  - intros f Hf Hreq Hmiss.
    destruct (parse_missing_required _ _ _ Hf Hreq Hmiss)
      as (issues & Hparse & Hin).
    unfold post_api_contact. rewrite Hparse. simpl.
    eexists _, _, issues. split; [reflexivity|]. simpl.
    split; [reflexivity|]. split; [reflexivity|]. split; [reflexivity|].
    intros ->. by apply elem_of_nil in Hin.
Qed.

(** ** Creating a project through the portal *)

Lemma projectData_forced (projectColumns : Shape) (req_body : JObj) :
  let projectData :=
    <["status" := JStr "planning"]> (<["clientId" := JNum 1]> req_body) in
  strip (insertProjectSchema projectColumns) projectData !! "clientId"
  = Some (JNum 1) ∧
  strip (insertProjectSchema projectColumns) projectData !! "status"
  = Some (JStr "planning").
Proof.
  simpl. split.
  - rewrite strip_lookup by (unfold insertProjectSchema; set_solver).
    by simplify_map_eq.
  - rewrite strip_lookup by (unfold insertProjectSchema; set_solver).
    by simplify_map_eq.
Qed.

(** C10: whenever [POST /api/client/projects] answers 200, the project in
    the response is the row appended to the projects table, and its
    [clientId] is 1 and its [status] is ["planning"]; a [clientId] or
    [status] supplied in the request body changes neither the response nor
    the store. *)
Theorem post_api_client_projects_forces_client_and_status
    (projectColumns : Shape) (req_body : JObj) (db : Database) :
  (∀ res db',
     post_api_client_projects projectColumns req_body db = (res, db') →
     statusCode res = 200 →
     ∃ project,
       body res = Ok project ∧
       projects_rows db' = projects_rows db ++ [project] ∧
       projects.clientId project = 1 ∧
       projects.status project = "planning") ∧
  (∀ clientId status : JSON,
     post_api_client_projects projectColumns
       (<["clientId" := clientId]> (<["status" := status]> req_body)) db
     = post_api_client_projects projectColumns req_body db).
Proof.
  split.
  - intros res db'. unfold post_api_client_projects.
    destruct (parse _ _) as [validatedData|error] eqn:Hparse.
    + apply parse_resolved in Hparse.
      destruct (projectData_forced projectColumns req_body) as [Hc Hs].
      simpl in Hc, Hs. rewrite <- Hparse in Hc, Hs.
      unfold createProject. rewrite Hc, Hs.
      destruct (decide _) as [Hin|Hout].
      * intros [= <- <-] _. eexists. split; [reflexivity|]. by simpl.
      * intros [= <- <-]. simpl. discriminate.
    + intros [= <- <-]. destruct error; simpl; discriminate.
  - intros clientId status. unfold post_api_client_projects.
    assert (<["status" := JStr "planning"]>
              (<["clientId" := JNum 1]>
                 (<["clientId" := clientId]>
                    (<["status" := status]> req_body)))
            = <["status" := JStr "planning"]>
                (<["clientId" := JNum 1]> req_body)) as ->; [|done].
    apply map_eq. intros k.
    destruct (decide (k = "status")) as [->|Hs]; [by simplify_map_eq|].
    destruct (decide (k = "clientId")) as [->|Hc]; by simplify_map_eq.
Qed.

(** ** Top pages *)

Lemma length_filter_fmap {A} (f : A → string) (p : string) (l : list A) :
  length (filter (p =.) (f <$> l)) = length (filter (λ r, f r = p) l).
Proof.
  induction l as [|r l IH]; [done|]. rewrite fmap_cons.
  destruct (decide (f r = p)) as [Heq|Hne].
  - rewrite !filter_cons_True by done. simpl. by rewrite IH.
  - rewrite !filter_cons_False by naive_solver. done.
Qed.

Lemma elem_of_groupBy_count (paths : list string) (e : PageCount) :
  e ∈ groupBy_count paths ↔
  path e ∈ paths ∧ views e = count (filter (path e =.) paths).
Proof.
  unfold groupBy_count. rewrite list_elem_of_fmap. split.
  - intros (p & -> & Hp). simpl.
    split; [by rewrite elem_of_remove_dups in Hp | done].
  - intros [Hp Hv]. exists (path e). split.
    + destruct e as [p v]. simpl in *. by rewrite Hv.
    + by rewrite elem_of_remove_dups.
Qed.

Lemma groupBy_count_paths (paths : list string) :
  path <$> groupBy_count paths = remove_dups paths.
Proof.
  unfold groupBy_count. rewrite <- list_fmap_compose.
  induction (remove_dups paths) as [|p l IH]; [done|].
  rewrite fmap_cons. simpl. by rewrite IH.
Qed.

Lemma NoDup_groupBy_count_paths (paths : list string) :
  NoDup (path <$> groupBy_count paths).
Proof. rewrite groupBy_count_paths. apply NoDup_remove_dups. Qed.

Lemma NoDup_groupBy_count (paths : list string) :
  NoDup (groupBy_count paths).
Proof. eapply NoDup_fmap_1, NoDup_groupBy_count_paths. Qed.

Section TopPages.
Variable db : Database.

Let paths : list string := pageViews.path <$> pageViews_rows db.
Let ranking : list PageCount := orderBy (desc views) (groupBy_count paths).

Lemma topPages_eq :
  ∃ dashboard, getAnalyticsDashboard db = Resolved dashboard ∧
               topPages dashboard = take 5 ranking.
Proof. by eexists. Qed.

Lemma elem_of_ranking (e : PageCount) :
  e ∈ ranking ↔
  path e ∈ paths ∧
  views e
  = count (filter (λ r, pageViews.path r = path e) (pageViews_rows db)).
Proof.
  unfold ranking. rewrite elem_of_orderBy, elem_of_groupBy_count.
  unfold count, paths. by rewrite length_filter_fmap.
Qed.

Lemma NoDup_ranking_paths : NoDup (path <$> ranking).
Proof.
  unfold ranking. rewrite (orderBy_Permutation views).
  apply NoDup_groupBy_count_paths.
Qed.

End TopPages.

(** Case analysis on membership in a list given by its elements. *)
Ltac elem_of_cases H :=
  repeat (apply elem_of_cons in H as [H|H]);
  [.. | by apply elem_of_nil in H].

Lemma count_filter_Permutation (p : string) (l l' : list string) :
  l ≡ₚ l' → count (filter (p =.) l) = count (filter (p =.) l').
Proof. intros Hl. unfold count. by rewrite Hl. Qed.

(** The six page views of the scenario, in any order of arrival, are
    grouped into ["/a"] with 4 views and ["/b"] with 2. *)
Lemma groupBy_count_scenario (paths : list string) :
  paths ≡ₚ ["/a"; "/a"; "/a"; "/a"; "/b"; "/b"] →
  groupBy_count paths
  ≡ₚ [ {| path := "/a"; views := 4 |}; {| path := "/b"; views := 2 |} ].
Proof.
  intros Hperm. apply NoDup_Permutation.
  - apply NoDup_groupBy_count.
  - apply NoDup_cons. split; [|apply NoDup_singleton].
    rewrite list_elem_of_singleton. discriminate.
  - intros [p v]. rewrite elem_of_groupBy_count. simpl.
    rewrite (count_filter_Permutation p _ _ Hperm), Hperm.
    split.
    + intros [Hp ->]. elem_of_cases Hp; subst p.
      1-4: apply elem_of_cons; left; reflexivity.
      all: apply elem_of_cons; right; apply elem_of_cons; left; reflexivity.
    + intros He. elem_of_cases He; injection He as -> ->.
      * split; [by apply elem_of_cons; left | reflexivity].
      * split; [by do 4 (apply elem_of_cons; right); apply elem_of_cons; left
               | reflexivity].
Qed.

(** C6: [topPages] of the dashboard has at most 5 entries, on distinct
    paths; each entry is a path of some PageView row with the number of
    PageView rows on that path; the entries are in descending order of that
    number; and a path left out has no more views than any entry, the list
    then being full.  When the page views are four on ["/a"] and two on
    ["/b"], in any order of creation, [topPages] is ["/a"] with 4 followed by
    ["/b"] with 2. *)
Theorem topPages_ranking (db : Database) :
  ∃ dashboard,
    getAnalyticsDashboard db = Resolved dashboard ∧
    (length (topPages dashboard) ≤ 5)%nat ∧
    NoDup (path <$> topPages dashboard) ∧
    (∀ e, e ∈ topPages dashboard →
          path e ∈ pageViews.path <$> pageViews_rows db ∧
          views e
          = Z.of_nat
              (length (filter (λ r, pageViews.path r = path e)
                         (pageViews_rows db)))) ∧
    StronglySorted (desc views) (topPages dashboard) ∧
    (∀ p, p ∈ pageViews.path <$> pageViews_rows db →
          p ∉ path <$> topPages dashboard →
          length (topPages dashboard) = 5%nat ∧
          ∀ e, e ∈ topPages dashboard →
               Z.of_nat
                 (length (filter (λ r, pageViews.path r = p)
                            (pageViews_rows db)))
               ≤ views e) ∧
    (pageViews.path <$> pageViews_rows db
       ≡ₚ ["/a"; "/a"; "/a"; "/a"; "/b"; "/b"] →
     topPages dashboard
     = [ {| path := "/a"; views := 4 |}; {| path := "/b"; views := 2 |} ]).
Proof.
  destruct (topPages_eq db) as (dashboard & Hdash & Htop).
  exists dashboard. split; [exact Hdash|]. rewrite Htop. clear Hdash Htop.
  set (paths := pageViews.path <$> pageViews_rows db).
  set (ranking := orderBy (desc views) (groupBy_count paths)).
  pose proof (orderBy_sorted views (groupBy_count paths)) as Hsorted.
  fold ranking in Hsorted.
  split; [|split; [|split; [|split; [|split]]]].
  - rewrite length_take. lia.
  - eapply sublist_NoDup; [apply (NoDup_ranking_paths db)|].
    apply fmap_sublist, sublist_take.
  - intros e He. apply (elem_of_ranking db).
    exact (elem_of_sublist _ _ _ He (sublist_take _ _)).
  - rewrite <- (take_drop 5 ranking) in Hsorted.
    by apply StronglySorted_app_1_l in Hsorted.
  - intros p Hp Hout.
    set (e := {| path := p;
                 views := count (filter (λ r, pageViews.path r = p)
                                   (pageViews_rows db)) |}).
    assert (e ∈ drop 5 ranking) as Hdrop.
    { assert (e ∈ ranking) as He by by apply (elem_of_ranking db).
      rewrite <- (take_drop 5 ranking), elem_of_app in He.
      destruct He as [He|He]; [|done].
      destruct Hout. by apply (list_elem_of_fmap_2 path) in He. }
    split.
    + apply length_take_le.
      destruct (decide (5 ≤ length ranking)%nat) as [|Hshort]; [done|].
      rewrite drop_ge in Hdrop by lia. by apply elem_of_nil in Hdrop.
    + intros e' He'.
      exact (limit_orderBy_top views 5 (groupBy_count paths) e' e He' Hdrop).
  - intros Hperm.
    assert (ranking ≡ₚ [ {| path := "/a"; views := 4 |};
                         {| path := "/b"; views := 2 |} ]) as Hrank.
    { unfold ranking. rewrite (orderBy_Permutation views).
      by apply groupBy_count_scenario. }
    symmetry in Hrank. apply Permutation_length_2_inv in Hrank as [Heq|Heq];
      rewrite Heq in *; [done|].
    apply StronglySorted_inv in Hsorted as [_ Hhead].
    apply Forall_cons in Hhead as [Hle _]. unfold desc in Hle. simpl in Hle.
    lia.
Qed.

(** ** Conversion rate *)

(** Without page views the rate is 0, whatever the number of submissions. *)
Lemma conversionRate_without_page_views (db : Database) :
  pageViews_rows db = [] →
  ∃ dashboard, getAnalyticsDashboard db = Resolved dashboard ∧
               totalVisitors dashboard = 0 ∧
               conversionRate dashboard = S754_zero false.
Proof.
  intros Hnone. eexists. split; [reflexivity|]. simpl. by rewrite Hnone.
Qed.

(** C4: with 23 submissions and 160 page views the percentage is exactly
    14.375, which rounds to 14.38 (1438 hundredths) with a tie rounded up as
    well as to even; [getAnalyticsDashboard()] returns 14.37, because the
    product [(23 / 160) * 100 * 100] is computed in binary64 as
    1437.4999999999998, which [Math.round] takes down to 1437. *)
Theorem conversionRate_tie_rounded_down (db : Database) :
  length (contactSubmissions_rows db) = 23%nat →
  length (pageViews_rows db) = 160%nat →
  ∃ dashboard,
    getAnalyticsDashboard db = Resolved dashboard ∧
    contactForms dashboard = 23 ∧
    totalVisitors dashboard = 160 ∧
    2 * (10000 * contactForms dashboard)
    = (2 * 1437 + 1) * totalVisitors dashboard ∧
    hundredths_half_up 23 160 = 1438 ∧
    hundredths_half_even 23 160 = 1438 ∧
    num_mul (num_mul (num_div (num_of_Z 23) (num_of_Z 160)) (num_of_Z 100))
      (num_of_Z 100)
    = S754_finite false 6322191859711999 (-42) ∧
    2 * 6322191859711999 < (2 * 1437 + 1) * 2 ^ 42 ∧
    conversionRate dashboard = num_div (num_of_Z 1437) (num_of_Z 100) ∧
    conversionRate dashboard ≠ conversionRate_spec hundredths_half_up 23 160 ∧
    conversionRate dashboard ≠ conversionRate_spec hundredths_half_even 23 160.
Proof.
  intros Hsubmissions Hviews. eexists. split; [reflexivity|]. simpl.
  unfold count. rewrite Hsubmissions, Hviews.
  repeat split; try (by vm_compute).
Qed.

(** * The properties on the sample data *)

Lemma patch_unknown_id_on_sample :
  parseInt "42" = Int 42 ∧
  (42 ∉ contactSubmissions.id
          <$> contactSubmissions_rows sample_submissions_db) ∧
  patch_api_contact_submissions "42" "closed" None 30 sample_submissions_db
  = ({| statusCode := 200; body := Ok None |}, sample_submissions_db).
Proof.
  assert (42 ∉ contactSubmissions.id
                 <$> contactSubmissions_rows sample_submissions_db) as Hnone
    by compute_done.
  split; [reflexivity|]. split; [exact Hnone|].
  exact (proj2 (patch_unknown_id_answers_success "42" "closed" None 30 42
                  sample_submissions_db eq_refl Hnone)).
Defined.

Lemma updateContactSubmissionStatus_on_sample :
  NoDup (contactSubmissions.id
           <$> contactSubmissions_rows sample_submissions_db) ∧
  sample_submission ∈ contactSubmissions_rows sample_submissions_db ∧
  ∃ updated db',
    updateContactSubmissionStatus (Int 1) "closed" None 30
      sample_submissions_db = (Resolved (Some updated), db') ∧
    contactSubmissions.status updated = "closed" ∧
    contactSubmissions.updatedAt updated = 30 ∧
    contactSubmissions.assignedTo updated = None ∧
    contactSubmissions.createdAt updated = 10.
Proof.
  assert (NoDup (contactSubmissions.id
                   <$> contactSubmissions_rows sample_submissions_db))
    as Hkey by compute_done.
  assert (sample_submission ∈ contactSubmissions_rows sample_submissions_db)
    as Hin by (left).
  split; [exact Hkey|]. split; [exact Hin|].
  destruct (updateContactSubmissionStatus_existing sample_submissions_db
              sample_submission "closed" 30 Hkey Hin)
    as (updated & rows & -> & Hupd & _).
  eexists _, _. split; [exact Hupd|]. by repeat split.
Defined.

Lemma conversionRate_on_sample :
  length (contactSubmissions_rows sample_traffic_db) = 23%nat ∧
  length (pageViews_rows sample_traffic_db) = 160%nat ∧
  ∃ dashboard,
    getAnalyticsDashboard sample_traffic_db = Resolved dashboard ∧
    conversionRate dashboard = S754_finite false 8089590830664253 (-49) ∧
    conversionRate_spec hundredths_half_up 23 160
    = S754_finite false 8095220330198467 (-49).
Proof.
  assert (length (contactSubmissions_rows sample_traffic_db) = 23%nat)
    as Hsubmissions by (vm_compute; reflexivity).
  assert (length (pageViews_rows sample_traffic_db) = 160%nat)
    as Hviews by (vm_compute; reflexivity).
  split; [exact Hsubmissions|]. split; [exact Hviews|].
  destruct (conversionRate_tie_rounded_down sample_traffic_db Hsubmissions
              Hviews) as (dashboard & Hdash & _ & _ & _ & _ & _ & _ & _
                          & Hrate & _).
  exists dashboard. split; [exact Hdash|]. split; [|vm_compute; reflexivity].
  rewrite Hrate. vm_compute. reflexivity.
Defined.

Lemma post_api_contact_on_sample :
  (parse sample_contact_schema sample_contact_body
   = Resolved (strip sample_contact_schema sample_contact_body) ∧
   ∃ db' submissions submission,
     post_api_contact sample_contact_schema sample_contact_body 10 empty_db
     = (res_json
          (Ok {| message :=
                   "Contact form submitted successfully. We'll get back to you within 48 hours!";
                 submissionId := 1 |}), db') ∧
     getContactSubmissions db' = Resolved submissions ∧
     submission ∈ submissions ∧
     contactSubmissions.id submission = 1) ∧
  (sample_incomplete_body !! "email" = None ∧
   ∃ res m errors,
     post_api_contact sample_contact_schema sample_incomplete_body 10 empty_db
     = (res, empty_db) ∧
     statusCode res = 400 ∧
     body res = Invalid m errors ∧
     errors ≠ []).
Proof.
  split.
  - assert (parse sample_contact_schema sample_contact_body
            = Resolved (strip sample_contact_schema sample_contact_body))
      as Hparse by (vm_compute; reflexivity).
    split; [exact Hparse|].
    destruct (proj1 (post_api_contact_outcomes sample_contact_schema
                       sample_contact_body 10 empty_db) _ Hparse)
      as (res & db' & accepted & submission & submissions & Hpost & _ & Hbody
          & _ & Hget & Hin & Hid & _).
    exists db', submissions, submission.
    assert (post_api_contact sample_contact_schema sample_contact_body 10
              empty_db
            = (res_json
                 (Ok {| message :=
                          "Contact form submitted successfully. We'll get back to you within 48 hours!";
                        submissionId := 1 |}),
               (createContactSubmission
                  (strip sample_contact_schema sample_contact_body) 10
                  empty_db).2)) as Hrun.
    { unfold post_api_contact. rewrite Hparse. reflexivity. }
    rewrite Hrun in Hpost. injection Hpost as <- <-.
    injection Hbody as <-.
    split; [reflexivity|]. split; [exact Hget|]. split; [exact Hin|].
    exact Hid.
  - assert (sample_incomplete_body !! "email" = None) as Hmissing
      by (vm_compute; reflexivity).
    split; [exact Hmissing|].
    destruct (proj2 (post_api_contact_outcomes sample_contact_schema
                       sample_incomplete_body 10 empty_db)
                {| fname := "email"; fkind := KString; frequired := true |})
      as (res & m & errors & Hpost & Hcode & Hbody & _ & Herrors);
      [right; left | reflexivity | exact Hmissing |].
    by exists res, m, errors.
Defined.

Lemma topPages_on_sample :
  pageViews.path <$> pageViews_rows sample_pages_db
    ≡ₚ ["/a"; "/a"; "/a"; "/a"; "/b"; "/b"] ∧
  ∃ dashboard,
    getAnalyticsDashboard sample_pages_db = Resolved dashboard ∧
    topPages dashboard
    = [ {| path := "/a"; views := 4 |}; {| path := "/b"; views := 2 |} ].
Proof.
  assert (pageViews.path <$> pageViews_rows sample_pages_db
            ≡ₚ ["/a"; "/a"; "/a"; "/a"; "/b"; "/b"]) as Hpaths
    by compute_done.
  split; [exact Hpaths|].
  destruct (topPages_ranking sample_pages_db)
    as (dashboard & Hdash & _ & _ & _ & _ & _ & Hscenario).
  exists dashboard. split; [exact Hdash | exact (Hscenario Hpaths)].
Defined.

Lemma getClientProjects_on_sample :
  createClient {[ "company" := JStr "Acme" ]} empty_db
  = (Resolved {| clients.id := 1;
                 clients.data := {[ "company" := JStr "Acme" ]} |},
     sample_client_db) ∧
  sample_project_body !! "clientId" = Some (JNum 99) ∧
  ∃ p db2 ps,
    createProject (<["clientId" := JNum 1]> sample_project_body)
      sample_client_db = (Resolved p, db2) ∧
    getClientProjects 1 db2 = Resolved ps ∧
    p ∈ ps ∧
    getClientProjects 2 db2 = Resolved [].
Proof.
  assert (createClient {[ "company" := JStr "Acme" ]} empty_db
          = (Resolved {| clients.id := 1;
                         clients.data := {[ "company" := JStr "Acme" ]} |},
             sample_client_db)) as Hclient by reflexivity.
  split; [exact Hclient|]. split; [vm_compute; reflexivity|].
  destruct (proj2 (getClientProjects_exact 1 empty_db) _
              (<["clientId" := JNum 1]> sample_project_body) _ _ Hclient)
    as (p & db2 & ps & Hp & Hps & _ & Hin & Hall & _);
    [vm_compute; reflexivity|].
  exists p, db2, ps. split; [exact Hp|]. split; [exact Hps|].
  split; [exact Hin|].
  destruct (proj1 (getClientProjects_exact 2 db2))
    as (none & Hnone & _ & _ & Hempty).
  rewrite Hnone. f_equal. apply Hempty.
  intros q Hq Hc.
  apply createProject_resolved in Hp as (_ & _ & _ & ->).
  simpl in Hq. apply list_elem_of_singleton in Hq as ->.
  assert (projects.clientId p = 1) as Hone; [|lia].
  apply Hall. exact Hin.
Defined.

Lemma getAvailableEngineers_on_sample :
  ∃ es,
    getAvailableEngineers sample_engineers_db = Resolved es ∧
    {| engineers.id := 1; engineers.availability := "available";
       engineers.data := ∅ |} ∈ es ∧
    {| engineers.id := 2; engineers.availability := "busy";
       engineers.data := ∅ |} ∉ es.
Proof.
  destruct (getAvailableEngineers_exact sample_engineers_db)
    as (es & Hes & Hiff & _ & Hbusy).
  exists es. split; [exact Hes|]. split.
  - apply Hiff. split; [left | reflexivity].
  - apply Hbusy. reflexivity.
Defined.

Lemma recentSubmissions_on_sample :
  NoDup (contactSubmissions.createdAt
           <$> contactSubmissions_rows sample_submissions_db) ∧
  ∃ submissions dashboard,
    getContactSubmissions sample_submissions_db = Resolved submissions ∧
    getAnalyticsDashboard sample_submissions_db = Resolved dashboard ∧
    contactSubmissions.createdAt <$> submissions = [20; 10] ∧
    recentSubmissions dashboard = take 5 submissions.
Proof.
  assert (NoDup (contactSubmissions.createdAt
                   <$> contactSubmissions_rows sample_submissions_db))
    as Hdistinct by compute_done.
  split; [exact Hdistinct|].
  eexists _, _. split; [reflexivity|]. split; [reflexivity|].
  split; [vm_compute; reflexivity|].
  apply (recentSubmissions_of_listing sample_submissions_db);
    [apply orderBy_ordered_desc
    |by apply getAnalyticsDashboard_admissible
    |exact Hdistinct].
Defined.

Lemma post_api_client_projects_on_sample :
  ∃ res db' project,
    post_api_client_projects sample_project_columns sample_project_body
      sample_client_db = (res, db') ∧
    statusCode res = 200 ∧
    body res = Ok project ∧
    projects_rows db' = [project] ∧
    projects.clientId project = 1 ∧
    projects.status project = "planning".
Proof.
  set (out := post_api_client_projects sample_project_columns
                sample_project_body sample_client_db).
  assert (statusCode out.1 = 200) as Hcode by (vm_compute; reflexivity).
  destruct (proj1 (post_api_client_projects_forces_client_and_status
                     sample_project_columns sample_project_body
                     sample_client_db) out.1 out.2
              (surjective_pairing out) Hcode)
    as (project & Hbody & Hrows & Hclient & Hstatus).
  exists out.1, out.2, project.
  split; [apply surjective_pairing|]. by repeat split.
Defined.

(** * Further properties of the handlers and of the storage layer *)

(** ** Requests that are not answered 200 *)

(** Unfolds a validating handler along the outcome of [parse]. *)
Ltac by_parse_cases sh o :=
  destruct (parse_cases sh o) as [[_ ->] | (?issues & ?Hne & _ & ->)].

Lemma createProject_rejected (project : JObj) (db db' : Database) (e : Thrown) :
  createProject project db = (Rejected e, db') →
  db' = with_projects (projects_rows db) (projects_seq db + 1) db ∧
  ∃ reason, e = StoreError reason.
Proof.
  unfold createProject.
  destruct (project !! "clientId") as [[| |c|]|]; try (intros [= <- <-]; eauto).
  destruct (decide _); [discriminate | intros [= <- <-]; eauto].
Qed.

Lemma createPageView_rejected (pageView : JObj) (now : Z) (db db' : Database)
    (e : Thrown) :
  createPageView pageView now db = (Rejected e, db') →
  db' = with_pageViews (pageViews_rows db) (pageViews_seq db + 1) db ∧
  ∃ reason, e = StoreError reason.
Proof.
  unfold createPageView.
  destruct (pageView !! "path") as [[| | |p]|]; intros [= <- <-]; eauto.
Qed.



(** ** Identifiers *)

(** X3: every handler that writes keeps the store invariant: identifiers
    stay unique within their table and below the next value of its
    sequence, and every project keeps referencing a stored client. *)
Theorem handlers_keep_store_invariant
    (contactSchema clientSchema pageViewColumns projectColumns : Shape)
    (req_body : JObj) (now : Z) (db : Database) :
  wf_db db →
  wf_db (post_api_contact contactSchema req_body now db).2 ∧
  wf_db (post_api_analytics_pageview pageViewColumns req_body now db).2 ∧
  wf_db (post_api_client clientSchema req_body db).2 ∧
  wf_db (post_api_client_projects projectColumns req_body db).2 ∧
  (∀ req_params_id status assignedTo,
     wf_db (patch_api_contact_submissions req_params_id status assignedTo
              now db).2).
Proof.
  intros Hwf. split; [|split; [|split; [|split]]].
  - unfold post_api_contact.
    by_parse_cases contactSchema req_body; [|exact Hwf].
    pose proof (createContactSubmission_wf (strip contactSchema req_body)
                  now db Hwf) as Hwf'.
    by destruct (createContactSubmission _ now db) as [[?|?] ?].
  - unfold post_api_analytics_pageview.
    by_parse_cases (insertPageViewSchema pageViewColumns) req_body; [|exact Hwf].
    pose proof (createPageView_wf
                  (strip (insertPageViewSchema pageViewColumns) req_body)
                  now db Hwf) as Hwf'.
    by destruct (createPageView _ now db) as [[?|?] ?].
  - unfold post_api_client.
    by_parse_cases clientSchema req_body; [|exact Hwf].
    pose proof (createClient_wf (strip clientSchema req_body) db Hwf) as Hwf'.
    by destruct (createClient _ db) as [[?|?] ?].
  - unfold post_api_client_projects.
    by_parse_cases (insertProjectSchema projectColumns)
      (<["status" := JStr "planning"]> (<["clientId" := JNum 1]> req_body));
      [|exact Hwf].
    pose proof (createProject_wf
                  (strip (insertProjectSchema projectColumns)
                     (<["status" := JStr "planning"]>
                        (<["clientId" := JNum 1]> req_body)))
                  db Hwf) as Hwf'.
    by destruct (createProject _ db) as [[?|?] ?].
  - intros req_params_id status assignedTo.
    unfold patch_api_contact_submissions.
    pose proof (updateContactSubmissionStatus_wf (parseInt req_params_id)
                  status assignedTo now db Hwf) as Hwf'.
    by destruct (updateContactSubmissionStatus _ _ _ now db) as [[?|?] ?].
Qed.

(** X4: in a store that satisfies the invariant, the identifier that
    [POST /api/contact] returns is the identifier of no submission stored
    before; the submissions stored before are all kept, in place, and
    exactly one row is appended, which has that identifier and holds the
    validated body. *)
Theorem post_api_contact_appends_fresh_row (contactSchema : Shape)
    (req_body : JObj) (now : Z) (db db' : Database)
    (res : Response (Body ContactAccepted)) :
  wf_db db →
  post_api_contact contactSchema req_body now db = (res, db') →
  statusCode res = 200 →
  ∃ accepted submission,
    body res = Ok accepted ∧
    contactSubmissions_rows db'
    = contactSubmissions_rows db ++ [submission] ∧
    contactSubmissions.id submission = submissionId accepted ∧
    contactSubmissions.data submission = strip contactSchema req_body ∧
    submissionId accepted
      ∉ contactSubmissions.id <$> contactSubmissions_rows db.
Proof.
  intros Hwf. unfold post_api_contact.
  by_parse_cases contactSchema req_body; [|intros [= <- <-]; discriminate].
  destruct (createContactSubmission_resolves (strip contactSchema req_body)
              now db) as (s & -> & Hid & Hdata & _).
  intros [= <- <-] _. eexists _, s. split; [reflexivity|]. simpl.
  split; [done|]. split; [done|]. split; [done|].
  rewrite Hid. intros Hin. apply list_elem_of_fmap in Hin as (r & Hr & Hin).
  pose proof (wf_contactSubmissions_seq db Hwf r Hin). lia.
Qed.

(** ** The newest submission *)

Lemma orderBy_newest_first {A} (key : A → Z) (tbl : list A) (s : A) :
  (∀ r, r ∈ tbl → key r < key s) →
  ∃ rest, orderBy (desc key) (tbl ++ [s]) = s :: rest ∧ rest ≡ₚ tbl.
Proof.
  intros Hlt.
  pose proof (orderBy_Permutation key (tbl ++ [s])) as Hperm.
  pose proof (orderBy_sorted key (tbl ++ [s])) as Hsorted.
  destruct (orderBy (desc key) (tbl ++ [s])) as [|h rest].
  { symmetry in Hperm. apply Permutation_nil_r in Hperm.
    by destruct tbl. }
  assert (h = s) as ->.
  { apply StronglySorted_inv in Hsorted as [_ Hhead].
    rewrite Forall_forall in Hhead.
    assert (h ∈ tbl ++ [s]) as Hh by (rewrite <- Hperm; left).
    assert (s ∈ h :: rest) as Hs by (rewrite Hperm, elem_of_app; right; left).
    apply elem_of_app in Hh as [Hh|Hh];
      [|by apply list_elem_of_singleton in Hh].
    specialize (Hlt h Hh).
    apply elem_of_cons in Hs as [->|Hs]; [lia|].
    specialize (Hhead s Hs). unfold desc in Hhead. lia. }
  exists rest. split; [done|].
  apply (Permutation_cons_inv (a := s)).
  rewrite Hperm. symmetry. apply Permutation_cons_append.
Qed.

(** X5: a submission created strictly later than every stored one is the
    first element of [getContactSubmissions()] and the first of the
    dashboard's [recentSubmissions]; the rest of the listing is a
    rearrangement of the submissions stored before. *)
Theorem latest_submission_listed_first (insertSubmission : JObj) (now : Z)
    (db : Database) :
  (∀ r, r ∈ contactSubmissions_rows db → contactSubmissions.createdAt r < now) →
  ∃ submission db' rest dashboard,
    createContactSubmission insertSubmission now db
    = (Resolved submission, db') ∧
    getContactSubmissions db' = Resolved (submission :: rest) ∧
    rest ≡ₚ contactSubmissions_rows db ∧
    getAnalyticsDashboard db' = Resolved dashboard ∧
    head (recentSubmissions dashboard) = Some submission.
Proof.
  intros Hlater.
  destruct (createContactSubmission_resolves insertSubmission now db)
    as (s & Hcreate & _ & _ & _ & _ & Hat & _).
  destruct (orderBy_newest_first contactSubmissions.createdAt
              (contactSubmissions_rows db) s) as (rest & Hsorted & Hrest).
  { intros r Hr. rewrite Hat. by apply Hlater. }
  eexists s, _, rest, _. split; [exact Hcreate|].
  unfold getContactSubmissions, getAnalyticsDashboard. simpl.
  rewrite Hsorted. split; [done|]. split; [done|]. split; [reflexivity|].
  reflexivity.
Qed.

(** ** The dashboard after a write *)

(** The dashboard reads the page views and the submissions only. *)
Lemma getAnalyticsDashboard_reads (db db' : Database) :
  pageViews_rows db' = pageViews_rows db →
  contactSubmissions_rows db' = contactSubmissions_rows db →
  getAnalyticsDashboard db' = getAnalyticsDashboard db.
Proof. intros Hv Hs. unfold getAnalyticsDashboard. by rewrite Hv, Hs. Qed.


Lemma post_api_analytics_pageview_accepted (pageViewColumns : Shape)
    (req_body : JObj) (now : Z) (db db' : Database)
    (res : Response (Body Z)) :
  post_api_analytics_pageview pageViewColumns req_body now db = (res, db') →
  statusCode res = 200 →
  ∃ view,
    body res = Ok (pageViews.id view) ∧
    req_body !! "path" = Some (JStr (pageViews.path view)) ∧
    pageViews.id view = pageViews_seq db ∧
    db' = with_pageViews (pageViews_rows db ++ [view]) (pageViews_seq db + 1)
            db.
Proof.
  unfold post_api_analytics_pageview.
  by_parse_cases (insertPageViewSchema pageViewColumns) req_body;
    [|intros [= <- <-]; discriminate].
  unfold createPageView.
  rewrite strip_lookup by (unfold insertPageViewSchema; left).
  destruct (req_body !! "path") as [[| | |p]|];
    try (intros [= <- <-]; discriminate).
  intros [= <- <-] _.
  by eexists {| pageViews.id := _; pageViews.path := p;
                pageViews.timestamp := _; pageViews.data := _ |}.
Qed.


(** ** The views of the top pages *)

Lemma total_views_cons (e : PageCount) (l : list PageCount) :
  total_views (e :: l) = views e + total_views l.
Proof. reflexivity. Qed.

Lemma total_views_app (l1 l2 : list PageCount) :
  total_views (l1 ++ l2) = total_views l1 + total_views l2.
Proof.
  induction l1 as [|e l1 IH]; [done|].
  rewrite <- app_comm_cons, !total_views_cons, IH. lia.
Qed.

Lemma total_views_Permutation (l1 l2 : list PageCount) :
  l1 ≡ₚ l2 → total_views l1 = total_views l2.
Proof.
  unfold total_views.
  induction 1 as [|e l1 l2 _ IH|e1 e2 l|l1 l2 l3 _ IH1 _ IH2]; simpl; lia.
Qed.

Section Groups.

Let group (f : string → Z) (p : string) : PageCount :=
  {| path := p; views := f p |}.

Lemma total_views_group_cons (f : string → Z) (k : string)
    (keys : list string) :
  total_views (group f <$> k :: keys) = f k + total_views (group f <$> keys).
Proof. reflexivity. Qed.

Lemma total_views_group_ext (f g : string → Z) (keys : list string) :
  (∀ p, p ∈ keys → f p = g p) →
  total_views (group f <$> keys) = total_views (group g <$> keys).
Proof.
  induction keys as [|k keys IH]; intros Hext; [done|].
  rewrite !total_views_group_cons, IH.
  - by rewrite (Hext k) by left.
  - intros p Hp. apply Hext. by right.
Qed.

Lemma total_views_group_add (f g : string → Z) (keys : list string) :
  total_views (group (λ p, f p + g p) <$> keys)
  = total_views (group f <$> keys) + total_views (group g <$> keys).
Proof.
  induction keys as [|k keys IH]; [done|].
  rewrite !total_views_group_cons, IH. lia.
Qed.

Lemma total_views_group_one (x : string) (keys : list string) :
  NoDup keys →
  total_views (group (λ p, if decide (p = x) then 1 else 0) <$> keys)
  = if decide (x ∈ keys) then 1 else 0.
Proof.
  induction 1 as [|k keys Hk Hnd IH]; [done|].
  rewrite total_views_group_cons, IH.
  destruct (decide (k = x)) as [->|Hne].
  - rewrite decide_False by done. rewrite decide_True by left. done.
  - destruct (decide (x ∈ keys)) as [Hx|Hx].
    + rewrite decide_True by (by right). done.
    + rewrite decide_False; [done|].
      rewrite not_elem_of_cons. split; [congruence | done].
Qed.

(** Every row falls in exactly one group. *)
Lemma total_views_groups (keys paths : list string) :
  NoDup keys → (∀ p, p ∈ paths → p ∈ keys) →
  total_views (group (λ p, count (filter (p =.) paths)) <$> keys)
  = count paths.
Proof.
  intros Hnd. induction paths as [|x paths IH]; intros Hsub.
  - rewrite (total_views_group_ext _ (λ p, 0 + 0)) by done.
    rewrite total_views_group_add.
    assert (total_views (group (λ _, 0) <$> keys) = 0) as ->; [|done].
    clear. induction keys as [|k keys IH]; [done|].
    by rewrite total_views_group_cons, IH.
  - rewrite (total_views_group_ext _
               (λ p, count (filter (p =.) paths)
                     + (if decide (p = x) then 1 else 0))).
    + rewrite total_views_group_add, IH, total_views_group_one by set_solver.
      rewrite decide_True by set_solver. unfold count. simpl. lia.
    + intros p _. unfold count.
      destruct (decide (p = x)) as [->|Hne].
      * rewrite filter_cons_True by done. simpl. lia.
      * rewrite filter_cons_False by done. lia.
Qed.

End Groups.

Lemma total_views_groupBy_count (paths : list string) :
  total_views (groupBy_count paths) = count paths.
Proof.
  unfold groupBy_count. apply total_views_groups.
  - apply NoDup_remove_dups.
  - intros p Hp. by rewrite elem_of_remove_dups.
Qed.

Lemma total_views_nonneg (paths : list string) (l : list PageCount) :
  (∀ e, e ∈ l → e ∈ groupBy_count paths) →
  0 ≤ total_views l ∧ (total_views l = 0 → l = []).
Proof.
  induction l as [|e l IH]; intros Hl; [done|].
  assert (1 ≤ views e) as He.
  { assert (e ∈ groupBy_count paths) as Hin by (apply Hl; left).
    apply elem_of_groupBy_count in Hin as [Hp ->].
    assert (path e ∈ filter (path e =.) paths) as Hf
      by by apply list_elem_of_filter.
    unfold count. destruct (filter _ paths); [by apply elem_of_nil in Hf|].
    simpl. lia. }
  destruct IH as [IH _]; [intros e' He'; apply Hl; by right|].
  unfold total_views in *. simpl. split; lia.
Qed.

(** X7: the [views] of [topPages] add up to at most [pageViews], and to
    exactly [pageViews] if and only if every path that has a page view is
    listed in [topPages]. *)
Theorem topPages_views_total (db : Database) :
  ∃ d, getAnalyticsDashboard db = Resolved d ∧
    total_views (topPages d) ≤ pageViews d ∧
    (total_views (topPages d) = pageViews d ↔
     ∀ p, p ∈ pageViews.path <$> pageViews_rows db →
          p ∈ path <$> topPages d).
Proof.
  eexists. split; [reflexivity|]. simpl.
  set (paths := pageViews.path <$> pageViews_rows db).
  set (ranking := orderBy (desc views) (groupBy_count paths)).
  assert (count (pageViews_rows db) = count paths) as ->
    by (unfold count, paths; by rewrite length_fmap).
  assert (ranking ≡ₚ groupBy_count paths) as Hperm
    by apply orderBy_Permutation.
  assert (total_views (limit 5 ranking) + total_views (drop 5 ranking)
          = count paths) as Htotal.
  { rewrite <- total_views_app. unfold limit. rewrite take_drop.
    rewrite (total_views_Permutation _ _ Hperm).
    apply total_views_groupBy_count. }
  destruct (total_views_nonneg paths (drop 5 ranking)) as [Hnonneg Hzero].
  { intros e He. rewrite <- Hperm.
    rewrite <- (take_drop 5 ranking), elem_of_app. by right. }
  split; [lia|]. split.
  - intros Heq p Hp.
    assert (drop 5 ranking = []) as Hdrop by (apply Hzero; lia).
    assert (limit 5 ranking = ranking) as ->.
    { unfold limit. rewrite <- (take_drop 5 ranking) at 2.
      by rewrite Hdrop, app_nil_r. }
    rewrite Hperm, groupBy_count_paths. by rewrite elem_of_remove_dups.
  - intros Hall.
    assert (drop 5 ranking = []) as Hdrop; [|rewrite Hdrop in Htotal;
      unfold total_views in Htotal at 2; simpl in Htotal; lia].
    destruct (drop 5 ranking) as [|e rest] eqn:Hdrop; [done|exfalso].
    assert (e ∈ groupBy_count paths) as He.
    { rewrite <- Hperm, <- (take_drop 5 ranking), Hdrop, elem_of_app.
      right; left. }
    apply elem_of_groupBy_count in He as [Hp _].
    specialize (Hall _ Hp). unfold limit in Hall.
    assert (NoDup (path <$> ranking)) as Hnd.
    { rewrite Hperm. apply NoDup_groupBy_count_paths. }
    rewrite <- (take_drop 5 ranking), Hdrop, fmap_app in Hnd.
    apply NoDup_app in Hnd as (_ & Hdisjoint & _).
    apply (Hdisjoint _ Hall). rewrite fmap_cons. left.
Qed.

(** ** What an update keeps *)

(** X8: [updateContactSubmissionStatus] never adds or removes a row, and
    at every position of the table it keeps the row's [id], [data] and
    [createdAt]; it never clears an assignee (a row that had one still has
    one) and never assigns the user 0; a row with another identifier is not
    changed at all. *)
Theorem updateContactSubmissionStatus_keeps (id : Num) (status : string)
    (assignedTo : option Z) (now : Z) (db : Database) :
  let rows := contactSubmissions_rows db in
  let rows' :=
    contactSubmissions_rows
      (updateContactSubmissionStatus id status assignedTo now db).2 in
  length rows' = length rows ∧
  ∀ i r, rows !! i = Some r →
    ∃ r', rows' !! i = Some r' ∧
      contactSubmissions.id r' = contactSubmissions.id r ∧
      contactSubmissions.data r' = contactSubmissions.data r ∧
      contactSubmissions.createdAt r' = contactSubmissions.createdAt r ∧
      (is_Some (contactSubmissions.assignedTo r) →
       is_Some (contactSubmissions.assignedTo r')) ∧
      (contactSubmissions.assignedTo r ≠ Some 0 →
       contactSubmissions.assignedTo r' ≠ Some 0) ∧
      (id ≠ Int (contactSubmissions.id r) → r' = r).
Proof.
  simpl. destruct id as [|k|]; simpl.
  1, 3: split; [done|]; intros i r Hr; exists r; by repeat split.
  split; [apply length_fmap|].
  intros i r Hr. rewrite list_lookup_fmap, Hr. simpl.
  destruct (decide (contactSubmissions.id r = k)) as [<-|Hne].
  - eexists. split; [reflexivity|]. simpl. repeat split; try done.
    + intros Hsome. destruct (truthy assignedTo) eqn:Ht; [|done].
      destruct assignedTo; [by eexists | done].
    + intros Hold. destruct assignedTo as [a|]; simpl; [|done].
      destruct (Z.eqb_spec a 0) as [->|Ha]; simpl; congruence.
  - exists r. repeat split; try done.
Qed.

Lemma updateData_twice (s1 s2 : string) (a1 a2 : option Z) (n1 n2 : Z)
    (r : ContactSubmission) :
  updateData s2 a2 n2 (updateData s1 a1 n1 r)
  = updateData s2 (if truthy a2 then a2 else a1) n2 r.
Proof.
  unfold updateData. simpl. f_equal.
  destruct (truthy a2) eqn:H2; [by rewrite H2 | done].
Qed.

Lemma filter_updated {A} (P : A → Prop) `{∀ r, Decision (P r)}
    (set : A → A) (tbl : list A) :
  (∀ r, P (set r) ↔ P r) →
  filter P ((update_where P set tbl).1) = set <$> filter P tbl.
Proof.
  intros HP. unfold update_where. simpl.
  induction tbl as [|r tbl IH]; [done|].
  rewrite fmap_cons. destruct (decide (P r)) as [Hr|Hr].
  - rewrite (filter_cons_True P (set r)) by by apply HP.
    rewrite (filter_cons_True P r) by done. by rewrite fmap_cons, IH.
  - by rewrite !filter_cons_False.
Qed.

(** X9: two updates of the same identifier amount to the second one alone,
    given the assignee of the first when it names none itself: the later
    [status] and [updatedAt] win, and [assignedTo] is the last argument that
    was present and not 0.  Both the returned row and the store agree. *)
Theorem updateContactSubmissionStatus_twice (id : Z) (s1 s2 : string)
    (a1 a2 : option Z) (n1 n2 : Z) (db : Database) :
  updateContactSubmissionStatus (Int id) s2 a2 n2
    (updateContactSubmissionStatus (Int id) s1 a1 n1 db).2
  = updateContactSubmissionStatus (Int id) s2
      (if truthy a2 then a2 else a1) n2 db.
Proof.
  unfold updateContactSubmissionStatus.
  set (P := λ r, contactSubmissions.id r = id).
  set (rows := contactSubmissions_rows db).
  pose proof (filter_updated P (updateData s1 a1 n1) rows) as Hfilter.
  unfold update_where in *. simpl in *.
  rewrite Hfilter by done. f_equal; [f_equal|].
  - rewrite <- list_fmap_compose. f_equal. apply list_fmap_ext.
    intros i r _. apply updateData_twice.
  - unfold with_contactSubmissions. simpl. f_equal.
    rewrite <- list_fmap_compose. apply list_fmap_ext. intros i r _. simpl.
    destruct (decide (P r)) as [Hr|Hr].
    + rewrite decide_True by done. apply updateData_twice.
    + by rewrite decide_False.
Qed.

(** ** The listing after an update *)

Lemma orderBy_unique {A} (key : A → Z) (tbl sorted : list A) :
  NoDup (key <$> tbl) → sorted ≡ₚ tbl → StronglySorted (desc key) sorted →
  sorted = orderBy (desc key) tbl.
Proof.
  intros Hnd Hperm Hsorted.
  apply (StronglySorted_unique_strong (desc key)); [|done|apply orderBy_sorted|].
  - intros x1 x2 H1 H2 H12 H21. unfold desc in H12, H21.
    rewrite Hperm in H1. apply (proj1 (elem_of_orderBy key tbl x2)) in H2.
    apply (key_unique key tbl x1 x2 Hnd H1 H2). lia.
  - by rewrite orderBy_Permutation.
Qed.

(** X10: when no two submissions have the same [createdAt], an update
    changes the listing of [getContactSubmissions()] in place: the listing
    after the update is the listing before it with the rows of that
    identifier replaced by their updated rows, in the same positions. *)
Theorem update_keeps_listing_order (id : Z) (status : string)
    (assignedTo : option Z) (now : Z) (db : Database) :
  NoDup (contactSubmissions.createdAt <$> contactSubmissions_rows db) →
  ∃ before after,
    getContactSubmissions db = Resolved before ∧
    getContactSubmissions
      (updateContactSubmissionStatus (Int id) status assignedTo now db).2
    = Resolved after ∧
    after
    = (λ r, if decide (contactSubmissions.id r = id)
            then updateData status assignedTo now r else r) <$> before.
Proof.
  intros Hnd. eexists _, _. split; [reflexivity|]. split; [reflexivity|].
  simpl.
  set (g := λ r, if decide (contactSubmissions.id r = id)
                 then updateData status assignedTo now r else r).
  set (rows := contactSubmissions_rows db).
  assert (∀ r, contactSubmissions.createdAt (g r)
               = contactSubmissions.createdAt r) as Hkey.
  { intros r. unfold g. by destruct (decide _). }
  symmetry. apply orderBy_unique.
  - rewrite <- list_fmap_compose.
    erewrite list_fmap_ext; [exact Hnd|]. intros i r _. apply Hkey.
  - by rewrite (orderBy_Permutation contactSubmissions.createdAt).
  - apply (StronglySorted_fmap g (desc contactSubmissions.createdAt)).
    + intros x y. unfold desc. by rewrite !Hkey.
    + apply orderBy_sorted.
Qed.

(** ** The projects of a client *)




(** ** Users *)

Lemma lookup_unique {A K} `{EqDecision K} (key : A → K) (tbl : list A)
    (k : K) (u : A) :
  NoDup (key <$> tbl) →
  head (filter (λ r, key r = k) tbl) = Some u ↔ u ∈ tbl ∧ key u = k.
Proof.
  intros Hnd. split.
  - intros Hhead. apply head_Some_elem_of in Hhead.
    apply list_elem_of_filter in Hhead. tauto.
  - intros [Hin Hk]. induction tbl as [|x tbl IH]; [by apply elem_of_nil in Hin|].
    rewrite fmap_cons in Hnd. apply NoDup_cons in Hnd as [Hx Hnd].
    apply elem_of_cons in Hin as [->|Hin].
    + by rewrite filter_cons_True.
    + rewrite filter_cons_False; [by apply IH|].
      intros Hxk. apply Hx. rewrite Hxk, <- Hk. by apply list_elem_of_fmap_2.
Qed.

Lemma lookup_none {A K} `{EqDecision K} (key : A → K) (tbl : list A) (k : K) :
  head (filter (λ r, key r = k) tbl) = None ↔ k ∉ key <$> tbl.
Proof.
  rewrite head_None. split.
  - intros Hnil Hin. apply list_elem_of_fmap in Hin as (r & -> & Hr).
    by apply (filter_nil_not_elem_of _ _ r Hnil).
  - intros Hout. apply elem_of_nil_inv. intros r.
    rewrite list_elem_of_filter. intros [<- Hr]. apply Hout.
    by apply list_elem_of_fmap_2.
Qed.

(** X13: in a users table with unique identifiers and user names,
    [getUser(id)] and [getUserByUsername(name)] resolve with a user exactly
    when that user is stored under that identifier or name, and with
    [undefined] exactly when no stored user has it. *)
Theorem getUser_finds_the_user (db : UsersTable) :
  wf_users db →
  (∀ id, ∃ found, getUser id db = Resolved found ∧
     (∀ u, found = Some u ↔ u ∈ users_rows db ∧ users.id u = id) ∧
     (found = None ↔ id ∉ users.id <$> users_rows db)) ∧
  (∀ name, ∃ found, getUserByUsername name db = Resolved found ∧
     (∀ u, found = Some u ↔ u ∈ users_rows db ∧ users.username u = name) ∧
     (found = None ↔ name ∉ users.username <$> users_rows db)).
Proof.
  intros [Hid _ Hname]. split.
  - intros id. eexists. split; [reflexivity|]. split.
    + intros u. by apply lookup_unique.
    + apply lookup_none.
  - intros name. eexists. split; [reflexivity|]. split.
    + intros u. by apply lookup_unique.
    + apply lookup_none.
Qed.

(** X14: a user that [createUser] has stored is found again, by
    [getUser] under the identifier it was given and by [getUserByUsername]
    under its name, with the name and password that were inserted; every
    user found before is still found, and identifiers and user names stay
    unique. *)
Theorem createUser_then_lookup (insertUser : InsertUser)
    (db db' : UsersTable) (user : User) :
  wf_users db →
  createUser insertUser db = (Resolved user, db') →
  users.username user = username insertUser ∧
  users.password user = password insertUser ∧
  getUser (users.id user) db' = Resolved (Some user) ∧
  getUserByUsername (username insertUser) db' = Resolved (Some user) ∧
  (∀ id u, getUser id db = Resolved (Some u) →
           getUser id db' = Resolved (Some u)) ∧
  (∀ name u, getUserByUsername name db = Resolved (Some u) →
             getUserByUsername name db' = Resolved (Some u)) ∧
  wf_users db'.
Proof.
  intros Hwf. unfold createUser.
  destruct (decide _) as [|Hfree]; [discriminate|].
  intros [= <- <-]. simpl.
  set (user := {| users.id := users_seq db;
                  users.username := username insertUser;
                  users.password := password insertUser |}).
  assert (wf_users {| users_rows := users_rows db ++ [user];
                      users_seq := users_seq db + 1 |}) as Hwf'.
  { destruct Hwf as [Hid Hseq Hname]. split; simpl.
    - by apply NoDup_key_snoc.
    - by apply (key_lt_snoc users.id).
    - rewrite fmap_app. apply NoDup_app. split; [done|]. split.
      + intros name Hin Hin'. apply list_elem_of_singleton in Hin'.
        by subst name.
      + apply NoDup_singleton. }
  destruct Hwf' as [Hid' Hseq' Hname']. simpl in *.
  assert (user ∈ users_rows db ++ [user]) as Hin
    by (apply elem_of_app; right; left).
  split; [done|]. split; [done|]. unfold getUser, getUserByUsername. simpl.
  split; [|split; [|split; [|split]]].
  - f_equal. by apply lookup_unique.
  - f_equal. by apply lookup_unique.
  - intros id u [= Hu]. f_equal.
    apply head_Some_elem_of, list_elem_of_filter in Hu as [Hu Hin'].
    apply lookup_unique; [done|]. split; [|done]. apply elem_of_app. by left.
  - intros name u [= Hu]. f_equal.
    apply head_Some_elem_of, list_elem_of_filter in Hu as [Hu Hin'].
    apply lookup_unique; [done|]. split; [|done]. apply elem_of_app. by left.
  - by split.
Qed.

(** ** The identifier in the path *)

Lemma not_is_space2 (a b : ascii) : byte a < 128 → is_space2 a b = false.
Proof.
  intros Ha. unfold is_space2.
  destruct (Z.eqb_spec (byte a) 194); [lia | done].
Qed.

Lemma not_is_space3 (a b c : ascii) : byte a < 128 → is_space3 a b c = false.
Proof.
  intros Ha. unfold is_space3.
  destruct (Z.eqb_spec (byte a) 225); [lia|].
  destruct (Z.eqb_spec (byte a) 226); [lia|].
  destruct (Z.eqb_spec (byte a) 227); [lia|].
  destruct (Z.eqb_spec (byte a) 239); [lia | done].
Qed.

(** White space is skipped alike when text follows a string that holds
    more than white space and whose first character after it is ASCII. *)
Lemma skip_spaces_app (s t : string) (a : ascii) (r : string) :
  skip_spaces s = String a r → byte a < 128 →
  skip_spaces (s +:+ t) = String a (r +:+ t).
Proof.
  remember (String.length s) as n eqn:Hn. revert s Hn.
  induction n as [n IH] using (well_founded_induction Nat.lt_wf_0).
  intros s Hn Hskip Ha. destruct s as [|x r0]; [discriminate|].
  simpl in Hn. simpl in Hskip. simpl.
  destruct (is_space x) eqn:Hx.
  { apply (IH (String.length r0)); [lia | done | done | done]. }
  destruct r0 as [|b r2]; simpl in *.
  { injection Hskip as <- <-.
    destruct t as [|b [|c r3]]; simpl;
      rewrite ?not_is_space2, ?not_is_space3 by done; done. }
  destruct (is_space2 x b) eqn:Hxb.
  { apply (IH (String.length r2)); [lia | done | done | done]. }
  destruct r2 as [|c r3]; simpl in *.
  { injection Hskip as <- <-.
    destruct t as [|c r3]; simpl; rewrite ?not_is_space3 by done; done. }
  destruct (is_space3 x b c) eqn:Hxbc.
  { apply (IH (String.length r3)); [lia | done | done | done]. }
  by injection Hskip as <- <-.
Qed.

(** A parameter that yields a number holds, after its white space, a sign
    or a digit. *)
Lemma parseInt_head (s : string) (id : Z) :
  parseInt s = Int id →
  ∃ a r, skip_spaces s = String a r ∧ byte a < 128.
Proof.
  unfold parseInt. destruct (skip_spaces s) as [|a r]; [discriminate|].
  intros Hid. exists a, r. split; [done|].
  destruct a as [[] [] [] [] [] [] [] []];
    try reflexivity; simpl in Hid; discriminate Hid.
Qed.

Lemma parse_digits_stops (radix : Z) (acc : option Z) (s rest : string)
    (c : ascii) :
  digit_value c = None →
  parse_digits radix acc (s +:+ String c rest) = parse_digits radix acc s.
Proof.
  intros Hc. revert acc. induction s as [|a s IH]; intros acc; simpl.
  - by rewrite Hc.
  - destruct (digit_value a) as [d|]; [|done].
    destruct (d <? radix); [apply IH | done].
Qed.

Lemma sign_app (s1 t : string) :
  s1 ≠ EmptyString →
  match s1 +:+ t with
  | String "-" r => (true, r)
  | String "+" r => (false, r)
  | _ => (false, s1 +:+ t)
  end
  = (let '(neg, s2) :=
       match s1 with
       | String "-" r => (true, r)
       | String "+" r => (false, r)
       | _ => (false, s1)
       end in (neg, s2 +:+ t)).
Proof.
  destruct s1 as [|a r]; [done|]. intros _. simpl.
  destruct a as [[] [] [] [] [] [] [] []]; reflexivity.
Qed.

Lemma prefix_app (s2 rest : string) (c : ascii) :
  digit_value c = None →
  s2 ≠ EmptyString →
  match s2 +:+ String c rest with
  | String "0" (String "x" r) => (16, r)
  | String "0" (String "X" r) => (16, r)
  | _ => (10, s2 +:+ String c rest)
  end
  = (let '(radix, s3) :=
       match s2 with
       | String "0" (String "x" r) => (16, r)
       | String "0" (String "X" r) => (16, r)
       | _ => (10, s2)
       end in (radix, s3 +:+ String c rest)).
Proof.
  intros Hc Hne. destruct s2 as [|a [|b r]]; [done| |]; simpl.
  - destruct a as [[] [] [] [] [] [] [] []]; try reflexivity.
    destruct c as [[] [] [] [] [] [] [] []]; try reflexivity; discriminate Hc.
  - destruct a as [[] [] [] [] [] [] [] []]; try reflexivity.
    destruct b as [[] [] [] [] [] [] [] []]; reflexivity.
Qed.

(** X15: [parseInt] reads the number at the start of the path parameter
    and ignores what follows it: when the parameter yields an identifier,
    the parameter followed by any text that starts with a character that is
    neither a digit nor a letter yields the same identifier, and
    [PATCH /api/contact-submissions/:id] treats both requests alike. *)
Theorem parseInt_ignores_trailing_text (req_params_id rest status : string)
    (c : ascii) (id : Z) (assignedTo : option Z) (now : Z) (db : Database) :
  parseInt req_params_id = Int id →
  digit_value c = None →
  parseInt (req_params_id +:+ String c rest) = Int id ∧
  patch_api_contact_submissions (req_params_id +:+ String c rest) status
    assignedTo now db
  = patch_api_contact_submissions req_params_id status assignedTo now db.
Proof.
  intros Hid Hc.
  assert (parseInt (req_params_id +:+ String c rest) = Int id) as Hsame.
  { destruct (parseInt_head _ _ Hid) as (a & r & Hs1 & Ha).
    pose proof (skip_spaces_app _ (String c rest) _ _ Hs1 Ha) as Happ.
    change (String a (r +:+ String c rest))
      with (String a r +:+ String c rest) in Happ.
    assert (String a r ≠ EmptyString) as Hne by done.
    rewrite <- Hs1 in Happ, Hne. clear Hs1 Ha.
    revert Hid. unfold parseInt. rewrite Happ. clear Happ.
    generalize dependent (skip_spaces req_params_id). intros s1 Hne.
    rewrite sign_app by done.
    destruct (match s1 with
              | String "-" r => (true, r)
              | String "+" r => (false, r)
              | _ => (false, s1)
              end) as [neg s2].
    destruct (decide (s2 = EmptyString)) as [->|Hs2]; [done|].
    rewrite prefix_app by done.
    destruct (match s2 with
              | String "0" (String "x" r) => (16, r)
              | String "0" (String "X" r) => (16, r)
              | _ => (10, s2)
              end) as [radix s3].
    by rewrite parse_digits_stops. }
  split; [exact Hsame|].
  unfold patch_api_contact_submissions. by rewrite Hsame, Hid.
Qed.

(** ** Page views on the dashboard *)

(** X16: a page view accepted by [POST /api/analytics/pageview] is counted
    on its path: the stored row has the [path] of the request body, and
    when the store then holds page views on at most five distinct paths,
    [topPages] lists that path with the number of page views it had before
    plus one. *)
Theorem pageview_is_counted_on_its_path (pageViewColumns : Shape)
    (req_body : JObj) (now : Z) (db db' : Database)
    (res : Response (Body Z)) :
  post_api_analytics_pageview pageViewColumns req_body now db = (res, db') →
  statusCode res = 200 →
  ∃ p view,
    req_body !! "path" = Some (JStr p) ∧
    pageViews_rows db' = pageViews_rows db ++ [view] ∧
    pageViews.path view = p ∧
    ((length (remove_dups (pageViews.path <$> pageViews_rows db')) ≤ 5)%nat →
     ∃ d', getAnalyticsDashboard db' = Resolved d' ∧
           {| path := p;
              views := count (filter (λ r, pageViews.path r = p)
                                (pageViews_rows db)) + 1 |}
             ∈ topPages d').
Proof.
  intros Hpost Hcode.
  apply post_api_analytics_pageview_accepted in Hpost
    as (view & _ & Hpath & _ & ->); [|done].
  exists (pageViews.path view), view. split; [exact Hpath|]. simpl.
  split; [done|]. split; [done|]. intros Hfew.
  eexists. split; [reflexivity|]. simpl.
  set (rows' := pageViews_rows db ++ [view]) in *.
  set (ranking := orderBy (desc views)
                    (groupBy_count (pageViews.path <$> rows'))).
  assert (length ranking ≤ 5)%nat as Hshort.
  { unfold ranking. rewrite (orderBy_Permutation views).
    rewrite <- (length_fmap path), groupBy_count_paths. exact Hfew. }
  unfold limit. rewrite take_ge by exact Hshort.
  unfold ranking. rewrite elem_of_orderBy, elem_of_groupBy_count. simpl.
  split.
  - unfold rows'. rewrite fmap_app, elem_of_app. right. left.
  - unfold count, rows'. rewrite length_filter_fmap, filter_app, length_app.
    rewrite filter_cons_True by done. simpl. lia.
Qed.

(** ** Identifiers of the other tables *)

(** X17: in a store that satisfies the invariant, the identifier of a page
    view, client or project that a handler reports as created belongs to no
    row stored in that table before. *)
Theorem created_identifiers_are_fresh
    (clientSchema pageViewColumns projectColumns : Shape)
    (req_body : JObj) (now : Z) (db : Database) :
  wf_db db →
  (∀ res db' id,
     post_api_analytics_pageview pageViewColumns req_body now db = (res, db') →
     body res = Ok id → id ∉ pageViews.id <$> pageViews_rows db) ∧
  (∀ res db' client,
     post_api_client clientSchema req_body db = (res, db') →
     body res = Ok client →
     client ∈ clients_rows db' ∧
     clients.id client ∉ clients.id <$> clients_rows db) ∧
  (∀ res db' project,
     post_api_client_projects projectColumns req_body db = (res, db') →
     body res = Ok project →
     project ∈ projects_rows db' ∧
     projects.id project ∉ projects.id <$> projects_rows db).
Proof.
  intros Hwf. split; [|split].
  - intros res db' id Hpost Hbody.
    assert (statusCode res = 200) as Hcode.
    { revert Hpost Hbody. unfold post_api_analytics_pageview.
      by_parse_cases (insertPageViewSchema pageViewColumns) req_body;
        [|by intros [= <- <-]].
      destruct (createPageView _ now db) as [[pageView|e] db1] eqn:Hcreate;
        [by intros [= <- <-]|].
      apply createPageView_rejected in Hcreate as [_ [reason ->]].
      by intros [= <- <-]. }
    apply post_api_analytics_pageview_accepted in Hpost
      as (view & Hbody' & _ & Hid & _); [|done].
    rewrite Hbody in Hbody'. injection Hbody' as ->. rewrite Hid.
    intros Hin. apply list_elem_of_fmap in Hin as (r & Hr & Hin).
    pose proof (wf_pageViews_seq db Hwf r Hin). lia.
  - intros res db' client. unfold post_api_client.
    by_parse_cases clientSchema req_body; [|by intros [= <- <-]].
    intros [= <- <-] [= <-]. simpl. split.
    + apply elem_of_app. right. left.
    + intros Hin. apply list_elem_of_fmap in Hin as (r & Hr & Hin).
      pose proof (wf_clients_seq db Hwf r Hin). simpl in Hr. lia.
  - intros res db' project. unfold post_api_client_projects.
    by_parse_cases (insertProjectSchema projectColumns)
      (<["status" := JStr "planning"]> (<["clientId" := JNum 1]> req_body));
      [|by intros [= <- <-]].
    destruct (createProject _ db) as [[p|e] db1] eqn:Hcreate.
    2: { apply createProject_rejected in Hcreate as [_ [reason ->]].
         by intros [= <- <-]. }
    intros [= <- <-] [= <-].
    apply createProject_resolved in Hcreate as (_ & _ & Hid & ->). simpl.
    split.
    + apply elem_of_app. right. left.
    + rewrite Hid. intros Hin.
      apply list_elem_of_fmap in Hin as (r & Hr & Hin).
      pose proof (wf_projects_seq db Hwf r Hin). lia.
Qed.

(** ** An update and the listing *)

(** X18: the submission that [PATCH /api/contact-submissions/:id] returns
    has the identifier of the path, the [status] of the request and the
    current time as [updatedAt], and [GET /api/contact-submissions] serves
    it from then on. *)
Theorem patched_submission_is_listed (req_params_id status : string)
    (assignedTo : option Z) (now : Z) (db db' : Database)
    (res : Response (Body (option ContactSubmission)))
    (submission : ContactSubmission) :
  patch_api_contact_submissions req_params_id status assignedTo now db
  = (res, db') →
  body res = Ok (Some submission) →
  parseInt req_params_id = Int (contactSubmissions.id submission) ∧
  contactSubmissions.status submission = status ∧
  contactSubmissions.updatedAt submission = now ∧
  ∃ submissions,
    get_api_contact_submissions db' = res_json (Json submissions) ∧
    submission ∈ submissions.
Proof.
  unfold patch_api_contact_submissions, updateContactSubmissionStatus.
  destruct (parseInt req_params_id) as [|i|];
    [by intros [= <- <-] | | by intros [= <- <-]].
  unfold update_where. intros [= <- <-] [= Hhead].
  apply head_Some_elem_of in Hhead.
  apply list_elem_of_fmap in Hhead as (r & -> & Hr).
  apply list_elem_of_filter in Hr as [Hid Hr]. simpl.
  split; [by rewrite Hid|]. split; [done|]. split; [done|].
  eexists. split; [reflexivity|]. simpl.
  apply elem_of_orderBy. apply list_elem_of_fmap.
  exists r. split; [|done]. by rewrite decide_True.
Qed.

(** * The further properties on the sample data *)

Lemma wf_sample_submissions_db : wf_db sample_submissions_db.
Proof.
  unfold sample_submissions_db.
  apply createContactSubmission_wf, createContactSubmission_wf, wf_empty_db.
Qed.

Lemma wf_sample_client_db : wf_db sample_client_db.
Proof. unfold sample_client_db. apply createClient_wf, wf_empty_db. Qed.

Lemma wf_sample_users : wf_users sample_users.
Proof.
  split.
  - compute_done.
  - apply Forall_forall. compute_done.
  - compute_done.
Qed.


Lemma store_invariant_on_sample :
  wf_db sample_submissions_db ∧
  wf_db (post_api_contact sample_contact_schema sample_contact_body 30
           sample_submissions_db).2 ∧
  wf_db (patch_api_contact_submissions "1" "closed" (Some 7) 30
           sample_submissions_db).2.
Proof.
  pose proof wf_sample_submissions_db as Hwf.
  destruct (handlers_keep_store_invariant sample_contact_schema [] [] []
              sample_contact_body 30 sample_submissions_db Hwf)
    as (Hcontact & _ & _ & _ & Hpatch).
  split; [exact Hwf|]. split; [exact Hcontact | apply Hpatch].
Defined.

Lemma fresh_submission_on_sample :
  wf_db sample_submissions_db ∧
  ∃ res db' accepted,
    post_api_contact sample_contact_schema sample_contact_body 30
      sample_submissions_db = (res, db') ∧
    body res = Ok accepted ∧
    submissionId accepted
      ∉ contactSubmissions.id <$> contactSubmissions_rows sample_submissions_db.
Proof.
  pose proof wf_sample_submissions_db as Hwf. split; [exact Hwf|].
  set (out := post_api_contact sample_contact_schema sample_contact_body 30
                sample_submissions_db).
  assert (statusCode out.1 = 200) as Hcode by (vm_compute; reflexivity).
  destruct (post_api_contact_appends_fresh_row sample_contact_schema
              sample_contact_body 30 sample_submissions_db out.2 out.1 Hwf
              (surjective_pairing out) Hcode)
    as (accepted & submission & Hbody & _ & _ & _ & Hfresh).
  exists out.1, out.2, accepted.
  split; [apply surjective_pairing|]. by split.
Defined.

Lemma latest_submission_on_sample :
  (∀ r, r ∈ contactSubmissions_rows sample_submissions_db →
        contactSubmissions.createdAt r < 30) ∧
  ∃ submission db' rest,
    createContactSubmission sample_contact_body 30 sample_submissions_db
    = (Resolved submission, db') ∧
    getContactSubmissions db' = Resolved (submission :: rest) ∧
    contactSubmissions.createdAt submission = 30.
Proof.
  assert (∀ r, r ∈ contactSubmissions_rows sample_submissions_db →
               contactSubmissions.createdAt r < 30) as Hlater.
  { apply Forall_forall. compute_done. }
  split; [exact Hlater|].
  destruct (latest_submission_listed_first sample_contact_body 30
              sample_submissions_db Hlater)
    as (submission & db' & rest & dashboard & Hcreate & Hget & _).
  exists submission, db', rest. split; [exact Hcreate|].
  split; [exact Hget|].
  by injection Hcreate as <- _.
Defined.


Lemma topPages_views_on_sample :
  ∃ d,
    getAnalyticsDashboard sample_pages_db = Resolved d ∧
    total_views (topPages d) = 6 ∧
    "/b" ∈ path <$> topPages d.
Proof.
  destruct (topPages_views_total sample_pages_db) as (d & Hd & _ & Hiff).
  exists d. split; [exact Hd|].
  assert (total_views (topPages d) = 6 ∧ pageViews d = 6) as [Htotal Hviews].
  { injection Hd as <-. split; vm_compute; reflexivity. }
  split; [exact Htotal|].
  apply (proj1 Hiff); [lia | compute_done].
Defined.

Lemma update_keeps_on_sample :
  contactSubmissions_rows sample_submissions_db !! 0%nat
  = Some sample_submission ∧
  ∃ r',
    contactSubmissions_rows
      (updateContactSubmissionStatus (Int 1) "closed" (Some 0) 30
         sample_submissions_db).2 !! 0%nat = Some r' ∧
    contactSubmissions.id r' = 1 ∧
    contactSubmissions.createdAt r' = 10 ∧
    contactSubmissions.assignedTo r' ≠ Some 0.
Proof.
  assert (contactSubmissions_rows sample_submissions_db !! 0%nat
          = Some sample_submission) as Hrow by reflexivity.
  split; [exact Hrow|].
  destruct (updateContactSubmissionStatus_keeps (Int 1) "closed" (Some 0) 30
              sample_submissions_db) as [_ Hkeeps].
  destruct (Hkeeps 0%nat sample_submission Hrow)
    as (r' & Hr' & Hid & _ & Hat & _ & Hzero & _).
  exists r'. split; [exact Hr'|]. split; [exact Hid|]. split; [exact Hat|].
  apply Hzero. discriminate.
Defined.

Lemma listing_order_on_sample :
  NoDup (contactSubmissions.createdAt
           <$> contactSubmissions_rows sample_submissions_db) ∧
  ∃ before after,
    getContactSubmissions sample_submissions_db = Resolved before ∧
    getContactSubmissions
      (updateContactSubmissionStatus (Int 1) "closed" None 30
         sample_submissions_db).2 = Resolved after ∧
    contactSubmissions.id <$> after = contactSubmissions.id <$> before ∧
    contactSubmissions.status <$> after = ["new"; "closed"].
Proof.
  assert (NoDup (contactSubmissions.createdAt
                   <$> contactSubmissions_rows sample_submissions_db))
    as Hdistinct by compute_done.
  split; [exact Hdistinct|].
  destruct (update_keeps_listing_order 1 "closed" None 30
              sample_submissions_db Hdistinct)
    as (before & after & Hbefore & Hafter & ->).
  eexists before, _. split; [exact Hbefore|]. split; [exact Hafter|].
  injection Hbefore as <-. split; vm_compute; reflexivity.
Defined.



Lemma getUser_on_sample :
  wf_users sample_users ∧
  getUser 2 sample_users
  = Resolved (Some {| users.id := 2; users.username := "grace";
                      users.password := "hopper" |}) ∧
  getUserByUsername "alan" sample_users = Resolved None.
Proof.
  pose proof wf_sample_users as Hwf. split; [exact Hwf|].
  destruct (getUser_finds_the_user sample_users Hwf) as [Hid Hname].
  destruct (Hid 2) as (found & -> & Hfound & _).
  destruct (Hname "alan") as (none & -> & _ & Hnone).
  split; f_equal.
  - apply Hfound. split; [right; left | reflexivity].
  - apply Hnone. compute_done.
Defined.

Lemma createUser_on_sample :
  wf_users sample_users ∧
  ∃ user db',
    createUser {| username := "alan"; password := "turing" |} sample_users
    = (Resolved user, db') ∧
    getUserByUsername "alan" db' = Resolved (Some user) ∧
    getUser 3 db' = Resolved (Some user).
Proof.
  pose proof wf_sample_users as Hwf. split; [exact Hwf|].
  set (out := createUser {| username := "alan"; password := "turing" |}
                sample_users).
  assert (∃ user, out.1 = Resolved user ∧ users.id user = 3)
    as (user & Huser & Hid) by (by eexists).
  assert (out = (Resolved user, out.2)) as Hcreate
    by (rewrite <- Huser; apply surjective_pairing).
  destruct (createUser_then_lookup _ _ _ _ Hwf Hcreate)
    as (_ & _ & Hget & Hname & _).
  exists user, out.2. split; [exact Hcreate|]. split; [exact Hname|].
  by rewrite <- Hid.
Defined.

Lemma parseInt_on_sample :
  parseInt "42" = Int 42 ∧
  digit_value "-" = None ∧
  parseInt "42-abc" = Int 42.
Proof.
  split; [reflexivity|]. split; [reflexivity|].
  exact (proj1 (parseInt_ignores_trailing_text "42" "abc" "closed" "-" 42
                  None 0 empty_db eq_refl eq_refl)).
Defined.

Lemma pageview_counted_on_sample :
  ∃ res db' d',
    post_api_analytics_pageview [] sample_pageview_body 5 sample_pages_db
    = (res, db') ∧
    statusCode res = 200 ∧
    getAnalyticsDashboard db' = Resolved d' ∧
    {| path := "/a"; views := 5 |} ∈ topPages d'.
Proof.
  set (out := post_api_analytics_pageview [] sample_pageview_body 5
                sample_pages_db).
  assert (statusCode out.1 = 200) as Hcode by (vm_compute; reflexivity).
  destruct (pageview_is_counted_on_its_path [] sample_pageview_body 5
              sample_pages_db out.2 out.1 (surjective_pairing out) Hcode)
    as (p & view & Hpath & _ & _ & Hcounted).
  assert (p = "/a") as -> by (by injection Hpath).
  destruct Hcounted as (d' & Hd' & Hin); [vm_compute; lia|].
  exists out.1, out.2, d'. split; [apply surjective_pairing|].
  split; [exact Hcode|]. split; [exact Hd'|]. exact Hin.
Defined.

Lemma created_identifiers_on_sample :
  wf_db sample_client_db ∧
  ∃ res db' client,
    post_api_client [] sample_contact_body sample_client_db = (res, db') ∧
    body res = Ok client ∧
    clients.id client ∉ clients.id <$> clients_rows sample_client_db.
Proof.
  pose proof wf_sample_client_db as Hwf. split; [exact Hwf|].
  set (out := post_api_client [] sample_contact_body sample_client_db).
  assert (∃ client, body out.1 = Ok client) as [client Hbody]
    by (by eexists).
  destruct (created_identifiers_are_fresh [] [] [] sample_contact_body 0
              sample_client_db Hwf) as (_ & Hclient & _).
  destruct (Hclient out.1 out.2 client (surjective_pairing out) Hbody)
    as [_ Hfresh].
  exists out.1, out.2, client. split; [apply surjective_pairing|].
  by split.
Defined.

Lemma patched_submission_on_sample :
  ∃ res db' submission submissions,
    patch_api_contact_submissions "1" "closed" None 30 sample_submissions_db
    = (res, db') ∧
    body res = Ok (Some submission) ∧
    contactSubmissions.status submission = "closed" ∧
    get_api_contact_submissions db' = res_json (Json submissions) ∧
    submission ∈ submissions.
Proof.
  set (out := patch_api_contact_submissions "1" "closed" None 30
                sample_submissions_db).
  assert (∃ submission, body out.1 = Ok (Some submission))
    as [submission Hbody] by (by eexists).
  destruct (patched_submission_is_listed "1" "closed" None 30
              sample_submissions_db out.2 out.1 submission
              (surjective_pairing out) Hbody)
    as (_ & Hstatus & _ & submissions & Hget & Hin).
  exists out.1, out.2, submission, submissions.
  split; [apply surjective_pairing|]. by repeat split.
Defined.
